(** * Quote pricing and seasonal rates of the B2B travel backend

    A shallow embedding of [backend/routers/quotes.py] (room allocation,
    vehicle selection, quote pricing) and of
    [backend/routers/seasonal_rates.py] (creation, update and resolution of
    seasonal rates), with the properties of the pricing engine proved over it.
    The other handlers of the two routers (listing, reading and soft
    deletion of rates; creating, reading, listing, sending, duplicating and
    deleting quotes; the pricing preview) follow, with what they guarantee.

    Conventions of the embedding:
    - a Python [int] is a [Z]; [//] by a positive constant is [Z.div];
    - a Python [float] is an exact rational [Q], compared with [==]; rounding
      of binary floating point is not modelled;
    - [Dict[str, int]] is a [gmap string Z]; [d[k]] may raise [KeyError],
      [d.get(k, v)] never does;
    - a dict of mixed values read under fixed keys is a record; a key read
      with [.get] is an [option] field ([None]: the key is absent);
    - a [datetime.date] is its proleptic ordinal, a [Z];
    - a table of the database is the list of its rows in scan order, and
      [query.filter(..).first()] is the first row of that list passing the
      filter. *)

From Stdlib Require Import ZArith QArith Qround Lqa Lia String List.
From stdpp Require Import base strings gmap list sorting.

Open Scope Z_scope.

(** ** Python exceptions as an error monad *)

Module Py.

Inductive error : Type :=
| KeyError (key : string)
| IndexError
| HTTPException (status_code : Z) (detail : string).

Inductive result (A : Type) : Type :=
| Ok (a : A)
| Raise (e : error).
Arguments Ok {A} a.
Arguments Raise {A} e.

Definition bind {A B} (m : result A) (k : A -> result B) : result B :=
  match m with
  | Ok a => k a
  | Raise e => Raise e
  end.

(** [for x in xs: ys.append(f(x))], aborted by the first exception. *)
Fixpoint for_each {A B} (f : A -> result B) (xs : list A) : result (list B) :=
  match xs with
  | [] => Ok []
  | x :: rest =>
      bind (f x) (fun y => bind (for_each f rest) (fun ys => Ok (y :: ys)))
  end.

(** [d[k]] *)
Definition getitem (d : gmap string Z) (k : string) : result Z :=
  match d !! k with
  | Some v => Ok v
  | None => Raise (KeyError k)
  end.

(** [d.get(k, default)] *)
Definition get (d : gmap string Z) (k : string) (default : Z) : Z :=
  match d !! k with
  | Some v => v
  | None => default
  end.

(** [xs[-1]] *)
Definition last_item {A} (xs : list A) : result A :=
  match last xs with
  | Some x => Ok x
  | None => Raise IndexError
  end.

(** [enumerate(xs)] *)
Definition enumerate {A} (xs : list A) : list (nat * A) :=
  zip (seq 0 (length xs)) xs.

(** Truth value of a float: [0.0] is false. *)
Definition truthy (x : Q) : bool := negb (Qeq_bool x 0).

Definition HTTP_400_BAD_REQUEST : Z := 400.
Definition HTTP_404_NOT_FOUND : Z := 404.

End Py.

Import Py.

Declare Scope py_scope.
Delimit Scope py_scope with py.
Notation "x <- m ;; k" := (Py.bind m (fun x => k))
  (at level 100, m at next level, right associativity) : py_scope.

(** ** models.py *)

Inductive TierLevel : Type := BRONZE | SILVER | GOLD | PLATINUM.

Inductive SeasonType : Type := LOW | MEDIUM | HIGH | PEAK.

Module Package.
Record t : Type := mk {
  id : string;
  duration : Z;
  nights : list Z;
  base_price : Q
}.
End Package.

Module Agent.
Record t : Type := mk { tier : option TierLevel }.
End Agent.

Module SeasonalRate.
Record t : Type := mk {
  id : string;
  package_id : string;
  season_name : string;
  season_type : SeasonType;
  start_date : Z;
  end_date : Z;
  price_multiplier : Q;
  fixed_price : option Q;
  min_stay : Z;
  is_active : bool
}.
End SeasonalRate.

(** ** schemas.py *)

Module HotelOption.
Record t : Type := mk { price_per_night : Q }.
End HotelOption.

Module AddOn.
Record t : Type := mk { price : Q }.
End AddOn.

Module QuoteOption.
Record t : Type := mk {
  hotels : list HotelOption.t;
  add_ons : option (list AddOn.t);
  markup : option Q;
  markup_type : option string
}.
End QuoteOption.

Module PricingBreakdown.
Record t : Type := mk {
  base_price : Q;
  hotel_cost : Q;
  vehicle_cost : Q;
  addon_cost : Q;
  tier_discount : Q;
  markup : Q;
  final_price : Q
}.
End PricingBreakdown.

(** ** routers/quotes.py *)

Module Quotes.

Definition TierLevel_eqb (a b : TierLevel) : bool :=
  match a, b with
  | BRONZE, BRONZE | SILVER, SILVER | GOLD, GOLD | PLATINUM, PLATINUM => true
  | _, _ => false
  end.

Definition TIER_DISCOUNTS : list (TierLevel * Z) :=
  [ (BRONZE, 5); (SILVER, 10); (GOLD, 15); (PLATINUM, 20) ].

(** [TIER_DISCOUNTS.get(tier, default)]; a [tier] of [None] is no key. *)
Definition TIER_DISCOUNTS_get (tier : option TierLevel) (default : Z) : Z :=
  match tier with
  | Some t =>
      match find (fun kv => TierLevel_eqb (fst kv) t) TIER_DISCOUNTS with
      | Some kv => snd kv
      | None => default
      end
  | None => default
  end.

Module Vehicle.
Record t : Type := mk {
  type : string;
  capacity : Z;
  price_per_day : Z
}.
End Vehicle.

Definition VEHICLE_PRICING : list Vehicle.t :=
  [ Vehicle.mk "Avanza" 6 35;
    Vehicle.mk "Innova" 8 45;
    Vehicle.mk "ELF" 15 65;
    Vehicle.mk "Bus" 25 85 ].

Module RoomCalc.
Record t : Type := mk {
  rooms : Z;
  total_occupants : Z;
  children_without_bed : Z
}.
End RoomCalc.

Definition calculate_rooms (adults child_with_bed child_without_bed : Z)
  : RoomCalc.t :=
  let total_bed_occupants := adults + child_with_bed in
  let rooms := (total_bed_occupants + 1) / 2 in
  {| RoomCalc.rooms := Z.max 1 rooms;
     RoomCalc.total_occupants := total_bed_occupants;
     RoomCalc.children_without_bed := child_without_bed |}.

(** The [for] loop of [select_vehicle]: the first vehicle that fits. *)
Fixpoint first_fitting (total_pax : Z) (vehicles : list Vehicle.t)
  : option Vehicle.t :=
  match vehicles with
  | [] => None
  | vehicle :: rest =>
      if total_pax <=? Vehicle.capacity vehicle then Some vehicle
      else first_fitting total_pax rest
  end.

Definition select_vehicle (total_pax : Z) : result Vehicle.t :=
  match first_fitting total_pax VEHICLE_PRICING with
  | Some vehicle => Ok vehicle
  | None => last_item VEHICLE_PRICING
  end.

(** [package.nights[i] if i < len(package.nights) else 1] *)
Definition leg_nights (package : Package.t) (i : nat) : Z :=
  match Package.nights package !! i with
  | Some n => n
  | None => 1
  end.

(** One round of the hotel loop: [hotel_cost += price * nights * rooms]. *)
Definition hotel_step (package : Package.t) (rooms : Z)
    (hotel_cost : Q) (ih : nat * HotelOption.t) : Q :=
  let nights := leg_nights package (fst ih) in
  (hotel_cost
   + HotelOption.price_per_night (snd ih) * inject_Z nights * inject_Z rooms)%Q.

Definition hotel_loop (package : Package.t) (rooms : Z)
    (hotels : list HotelOption.t) : Q :=
  fold_left (hotel_step package rooms) (enumerate hotels) 0%Q.

(** The values the local variable [nights] takes, one per round of the
    hotel loop. *)
Definition charged_nights (package : Package.t) (option : QuoteOption.t)
  : list Z :=
  map (fun ih => leg_nights package (fst ih))
      (enumerate (QuoteOption.hotels option)).

Definition addon_loop (total : Z) (add_ons : list AddOn.t) : Q :=
  fold_left (fun addon_cost addon =>
               (addon_cost + AddOn.price addon * inject_Z total)%Q)
            add_ons 0%Q.

(** The body of the loop over [options]. [pax] is never written to, so
    [pax["total"]] is read once here and reused. *)
Definition price_option (package : Package.t) (pax : gmap string Z)
    (agent : Agent.t) (option : QuoteOption.t)
  : result PricingBreakdown.t :=
  (total <- getitem pax "total" ;;
   let base_price := (Package.base_price package * inject_Z total)%Q in
   adults <- getitem pax "adults" ;;
   let room_calc :=
     calculate_rooms adults
                     (get pax "child_with_bed" 0)
                     (get pax "child_without_bed" 0) in
   let hotel_cost :=
     hotel_loop package (RoomCalc.rooms room_calc)
                (QuoteOption.hotels option) in
   vehicle <- select_vehicle total ;;
   let vehicle_cost :=
     inject_Z (Vehicle.price_per_day vehicle * Package.duration package) in
   let addon_cost :=
     addon_loop total (default [] (QuoteOption.add_ons option)) in
   let subtotal := (base_price + hotel_cost + vehicle_cost + addon_cost)%Q in
   let tier_discount_amount :=
     inject_Z (TIER_DISCOUNTS_get (Agent.tier agent) 0 * total) in
   let discounted_price := (subtotal - tier_discount_amount)%Q in
   let markup_amount := default 0%Q (QuoteOption.markup option) in
   let markup_amount :=
     if bool_decide (QuoteOption.markup_type option = Some "percentage")
     then (discounted_price * (markup_amount / 100))%Q
     else markup_amount in
   let final_price := (discounted_price + markup_amount)%Q in
   Ok {| PricingBreakdown.base_price := base_price;
         PricingBreakdown.hotel_cost := hotel_cost;
         PricingBreakdown.vehicle_cost := vehicle_cost;
         PricingBreakdown.addon_cost := addon_cost;
         PricingBreakdown.tier_discount := tier_discount_amount;
         PricingBreakdown.markup := markup_amount;
         PricingBreakdown.final_price := final_price |})%py.

Definition calculate_quote_pricing (package : Package.t)
    (options : list QuoteOption.t) (pax : gmap string Z) (agent : Agent.t)
  : result (list PricingBreakdown.t) :=
  for_each (price_option package pax agent) options.

End Quotes.

(** ** schemas.py, seasonal rates *)

Module SeasonalRateCreate.
Record t : Type := mk {
  package_id : string;
  season_name : string;
  season_type : SeasonType;
  start_date : Z;
  end_date : Z;
  price_multiplier : Q;
  fixed_price : option Q;
  min_stay : Z;
  is_active : bool
}.
End SeasonalRateCreate.

(** The fields of an update that were set in the request; [None] is a field
    left unset, which [dict(exclude_unset=True)] drops. [fixed_price] is
    the one nullable column: it can be set to [None]. *)
Module SeasonalRateUpdate.
Record t : Type := mk {
  season_name : option string;
  season_type : option SeasonType;
  start_date : option Z;
  end_date : option Z;
  price_multiplier : option Q;
  fixed_price : option (option Q);
  min_stay : option Z;
  is_active : option bool
}.
End SeasonalRateUpdate.

(** ** routers/seasonal_rates.py *)

Module SeasonalRates.

Module DB.
Record t : Type := mk {
  packages : list Package.t;
  seasonal_rates : list SeasonalRate.t
}.
End DB.

(** [db.query(Package).filter(Package.id == package_id).first()] *)
Definition query_package (db : DB.t) (package_id : string)
  : option Package.t :=
  find (fun p => bool_decide (Package.id p = package_id)) (DB.packages db).

(** [db.query(SeasonalRate).filter(SeasonalRate.id == id).first()] *)
Definition query_rate (db : DB.t) (seasonal_rate_id : string)
  : option SeasonalRate.t :=
  find (fun r => bool_decide (SeasonalRate.id r = seasonal_rate_id))
       (DB.seasonal_rates db).

(** The filter of the overlap query of [create_seasonal_rate]. *)
Definition overlap_filter (package_id : string) (start_date end_date : Z)
    (r : SeasonalRate.t) : bool :=
  bool_decide (SeasonalRate.package_id r = package_id)
  && SeasonalRate.is_active r
  && (SeasonalRate.start_date r <=? end_date)
  && (SeasonalRate.end_date r >=? start_date).

(** The filter of the rate query of [calculate_seasonal_price]. *)
Definition applicable_filter (package_id : string) (travel_date : Z)
    (r : SeasonalRate.t) : bool :=
  bool_decide (SeasonalRate.package_id r = package_id)
  && SeasonalRate.is_active r
  && (SeasonalRate.start_date r <=? travel_date)
  && (SeasonalRate.end_date r >=? travel_date).

(** [SeasonalRate(id=..., **seasonal_rate.dict())] *)
Definition new_rate (id : string) (c : SeasonalRateCreate.t)
  : SeasonalRate.t :=
  {| SeasonalRate.id := id;
     SeasonalRate.package_id := SeasonalRateCreate.package_id c;
     SeasonalRate.season_name := SeasonalRateCreate.season_name c;
     SeasonalRate.season_type := SeasonalRateCreate.season_type c;
     SeasonalRate.start_date := SeasonalRateCreate.start_date c;
     SeasonalRate.end_date := SeasonalRateCreate.end_date c;
     SeasonalRate.price_multiplier := SeasonalRateCreate.price_multiplier c;
     SeasonalRate.fixed_price := SeasonalRateCreate.fixed_price c;
     SeasonalRate.min_stay := SeasonalRateCreate.min_stay c;
     SeasonalRate.is_active := SeasonalRateCreate.is_active c |}.

(** [db.add(row); db.commit()] *)
Definition add_rate (db : DB.t) (r : SeasonalRate.t) : DB.t :=
  {| DB.packages := DB.packages db;
     DB.seasonal_rates := DB.seasonal_rates db ++ [r] |}.

(** [create_seasonal_rate]; [uuid] is the value of [str(uuid.uuid4())].
    The database after the call is returned next to the outcome. *)
Definition create_seasonal_rate (seasonal_rate : SeasonalRateCreate.t)
    (uuid : string) (db : DB.t) : result SeasonalRate.t * DB.t :=
  match query_package db (SeasonalRateCreate.package_id seasonal_rate) with
  | None => (Raise (HTTPException HTTP_404_NOT_FOUND "Package not found"), db)
  | Some _ =>
      if SeasonalRateCreate.start_date seasonal_rate
         >=? SeasonalRateCreate.end_date seasonal_rate
      then (Raise (HTTPException HTTP_400_BAD_REQUEST
                     "Start date must be before end date"), db)
      else
        match find (overlap_filter
                      (SeasonalRateCreate.package_id seasonal_rate)
                      (SeasonalRateCreate.start_date seasonal_rate)
                      (SeasonalRateCreate.end_date seasonal_rate))
                   (DB.seasonal_rates db) with
        | Some overlapping_rate =>
            (Raise (HTTPException HTTP_400_BAD_REQUEST
                      ("Seasonal rate overlaps with existing rate: "
                       +:+ SeasonalRate.season_name overlapping_rate)), db)
        | None =>
            let db_seasonal_rate := new_rate uuid seasonal_rate in
            (Ok db_seasonal_rate, add_rate db db_seasonal_rate)
        end
  end.

(** [for field, value in update_data.items(): setattr(row, field, value)] *)
Definition apply_update (u : SeasonalRateUpdate.t) (r : SeasonalRate.t)
  : SeasonalRate.t :=
  {| SeasonalRate.id := SeasonalRate.id r;
     SeasonalRate.package_id := SeasonalRate.package_id r;
     SeasonalRate.season_name :=
       default (SeasonalRate.season_name r) (SeasonalRateUpdate.season_name u);
     SeasonalRate.season_type :=
       default (SeasonalRate.season_type r) (SeasonalRateUpdate.season_type u);
     SeasonalRate.start_date :=
       default (SeasonalRate.start_date r) (SeasonalRateUpdate.start_date u);
     SeasonalRate.end_date :=
       default (SeasonalRate.end_date r) (SeasonalRateUpdate.end_date u);
     SeasonalRate.price_multiplier :=
       default (SeasonalRate.price_multiplier r)
               (SeasonalRateUpdate.price_multiplier u);
     SeasonalRate.fixed_price :=
       default (SeasonalRate.fixed_price r) (SeasonalRateUpdate.fixed_price u);
     SeasonalRate.min_stay :=
       default (SeasonalRate.min_stay r) (SeasonalRateUpdate.min_stay u);
     SeasonalRate.is_active :=
       default (SeasonalRate.is_active r) (SeasonalRateUpdate.is_active u) |}.

(** The row fetched by [query_rate] is the one written back on commit. *)
Fixpoint write_rate (seasonal_rate_id : string) (r' : SeasonalRate.t)
    (rows : list SeasonalRate.t) : list SeasonalRate.t :=
  match rows with
  | [] => []
  | r :: rest =>
      if bool_decide (SeasonalRate.id r = seasonal_rate_id) then r' :: rest
      else r :: write_rate seasonal_rate_id r' rest
  end.

Definition update_seasonal_rate (seasonal_rate_id : string)
    (seasonal_rate_update : SeasonalRateUpdate.t) (db : DB.t)
  : result SeasonalRate.t * DB.t :=
  match query_rate db seasonal_rate_id with
  | None =>
      (Raise (HTTPException HTTP_404_NOT_FOUND "Seasonal rate not found"), db)
  | Some db_seasonal_rate =>
      let start_date :=
        default (SeasonalRate.start_date db_seasonal_rate)
                (SeasonalRateUpdate.start_date seasonal_rate_update) in
      let end_date :=
        default (SeasonalRate.end_date db_seasonal_rate)
                (SeasonalRateUpdate.end_date seasonal_rate_update) in
      if start_date >=? end_date
      then (Raise (HTTPException HTTP_400_BAD_REQUEST
                     "Start date must be before end date"), db)
      else
        let updated := apply_update seasonal_rate_update db_seasonal_rate in
        (Ok updated,
         {| DB.packages := DB.packages db;
            DB.seasonal_rates :=
              write_rate seasonal_rate_id updated (DB.seasonal_rates db) |})
  end.

(** The ["seasonal_rate"] entry of the price response. *)
Module RateInfo.
Record t : Type := mk {
  id : string;
  season_name : string;
  season_type : SeasonType;
  price_multiplier : Q;
  fixed_price : option Q
}.
End RateInfo.

Module PriceResponse.
Record t : Type := mk {
  package_id : string;
  travel_date : Z;
  base_price : Q;
  seasonal_rate : option RateInfo.t;
  final_price : Q
}.
End PriceResponse.

Definition calculate_seasonal_price (package_id : string) (travel_date : Z)
    (db : DB.t) : result PriceResponse.t :=
  match query_package db package_id with
  | None => Raise (HTTPException HTTP_404_NOT_FOUND "Package not found")
  | Some package =>
      let seasonal_rate :=
        find (applicable_filter package_id travel_date)
             (DB.seasonal_rates db) in
      let base_price := Package.base_price package in
      match seasonal_rate with
      | Some seasonal_rate =>
          let by_multiplier :=
            (base_price * SeasonalRate.price_multiplier seasonal_rate)%Q in
          (* [if seasonal_rate.fixed_price:], false on [None] and on [0.0] *)
          let final_price :=
            match SeasonalRate.fixed_price seasonal_rate with
            | Some fixed_price =>
                if truthy fixed_price then fixed_price else by_multiplier
            | None => by_multiplier
            end in
          Ok {| PriceResponse.package_id := package_id;
                PriceResponse.travel_date := travel_date;
                PriceResponse.base_price := base_price;
                PriceResponse.seasonal_rate :=
                  Some {| RateInfo.id := SeasonalRate.id seasonal_rate;
                          RateInfo.season_name :=
                            SeasonalRate.season_name seasonal_rate;
                          RateInfo.season_type :=
                            SeasonalRate.season_type seasonal_rate;
                          RateInfo.price_multiplier :=
                            SeasonalRate.price_multiplier seasonal_rate;
                          RateInfo.fixed_price :=
                            SeasonalRate.fixed_price seasonal_rate |};
                PriceResponse.final_price := final_price |}
      | None =>
          Ok {| PriceResponse.package_id := package_id;
                PriceResponse.travel_date := travel_date;
                PriceResponse.base_price := base_price;
                PriceResponse.seasonal_rate := None;
                PriceResponse.final_price := base_price |}
      end
  end.

(** The multiplier a price response reports, if it reports one. *)
Definition reported_multiplier (resp : PriceResponse.t) : option Q :=
  RateInfo.price_multiplier <$> PriceResponse.seasonal_rate resp.

End SeasonalRates.

(** ** The properties, in the words of the specification *)

Module Spec.

(** Sum of a list of amounts. *)
Definition Qsum (xs : list Q) : Q := fold_right Qplus 0%Q xs.

(** [max(1, ceil(occupants / 2))] *)
Definition rooms_needed (occupants : Z) : Z :=
  Z.max 1 (Qceiling (inject_Z occupants / 2)).

(** [nights[i] if i < len(nights) else 1] *)
Definition nights_or_one (nights : list Z) (i : nat) : Z :=
  if (i <? length nights)%nat then nth i nights 0 else 1.

(** Night counts leg by leg when a leg without a hotel entry counts for
    one night: one count per package leg. *)
Definition leg_default_nights (package : Package.t) (option : QuoteOption.t)
  : list Z :=
  imap (fun i n =>
          if (i <? length (QuoteOption.hotels option))%nat then n else 1)
       (Package.nights package).

(** The charge of hotel entry [hotel] for [n] nights in [rooms] rooms. *)
Definition stay (rooms : Z) (hotel : HotelOption.t) (n : Z) : Q :=
  (HotelOption.price_per_night hotel * inject_Z n * inject_Z rooms)%Q.

(** The rate covers the calendar date. *)
Definition covers (r : SeasonalRate.t) (d : Z) : Prop :=
  SeasonalRate.start_date r <= d <= SeasonalRate.end_date r.

(** Some date is covered by two active rates of one package. *)
Definition double_cover (rows : list SeasonalRate.t) : Prop :=
  exists (i j : nat) (ri rj : SeasonalRate.t) (d : Z),
    i <> j /\ rows !! i = Some ri /\ rows !! j = Some rj /\
    SeasonalRate.package_id ri = SeasonalRate.package_id rj /\
    SeasonalRate.is_active ri = true /\ SeasonalRate.is_active rj = true /\
    covers ri d /\ covers rj d.

(** The rooms of a party, read from [pax] as the pricing loop does. *)
Definition rooms_of (pax : gmap string Z) (adults : Z) : Z :=
  Quotes.RoomCalc.rooms
    (Quotes.calculate_rooms adults (get pax "child_with_bed" 0)
                            (get pax "child_without_bed" 0)).

End Spec.

(** ** Concrete inputs *)

Module Scenario.

Definition hotel (price : Q) : HotelOption.t := HotelOption.mk price.

(** The end-to-end scenario of the specification. *)
Definition e2e_package : Package.t := Package.mk "pkg-1" 3 [1; 2] 100%Q.
Definition e2e_pax : gmap string Z :=
  <["adults" := 2]> (<["children_with_bed" := 0]>
    (<["children_without_bed" := 0]> (<["total" := 2]> ∅))).
Definition e2e_option : QuoteOption.t :=
  QuoteOption.mk [hotel 50%Q; hotel 40%Q] (Some []) (Some 10%Q)
                 (Some "percentage").
Definition bronze : Agent.t := Agent.mk (Some BRONZE).
Definition platinum : Agent.t := Agent.mk (Some PLATINUM).

(** Two legs, one hotel entry. *)
Definition one_hotel_option : QuoteOption.t :=
  QuoteOption.mk [hotel 50%Q] (Some []) (Some 0%Q) (Some "flat").

(** Three hotel entries for the two legs. *)
Definition three_hotel_option : QuoteOption.t :=
  QuoteOption.mk [hotel 50%Q; hotel 40%Q; hotel 30%Q] (Some []) (Some 0%Q)
                 (Some "flat").

(** A cheap one-day package for a party of six. *)
Definition cheap_package : Package.t := Package.mk "pkg-2" 1 [1] 1%Q.
Definition six_pax : gmap string Z :=
  <["adults" := 6]> (<["children" := 0]> (<["child_with_bed" := 0]>
    (<["child_without_bed" := 0]> (<["total" := 6]> ∅)))).
Definition cheap_option : QuoteOption.t :=
  QuoteOption.mk [hotel 10%Q] (Some []) (Some 0%Q) (Some "flat").

(** Dates as ordinals: day 1 is 2024-01-01 in the examples below. *)
Definition sample_package : Package.t := Package.mk "pkg-1" 4 [2; 2] 1000%Q.

Definition rate (id : string) (start_date end_date : Z)
    (price_multiplier : Q) (fixed_price : option Q) : SeasonalRate.t :=
  SeasonalRate.mk id "pkg-1" "Peak" PEAK start_date end_date
                  price_multiplier fixed_price 1 true.

Definition request (start_date end_date : Z) : SeasonalRateCreate.t :=
  SeasonalRateCreate.mk "pkg-1" "Peak" PEAK start_date end_date 1.5%Q None 1
                        true.

Definition db_no_rates : SeasonalRates.DB.t :=
  SeasonalRates.DB.mk [sample_package] [].

(** A rate of days 350 to 380 with multiplier 1.5 and a fixed price of 0. *)
Definition db_fixed_zero : SeasonalRates.DB.t :=
  SeasonalRates.DB.mk [sample_package] [rate "r1" 350 380 1.5%Q (Some 0%Q)].

(** One active rate of days 1 to 10. *)
Definition db_one_rate : SeasonalRates.DB.t :=
  SeasonalRates.DB.mk [sample_package] [rate "r1" 1 10 1.5%Q None].


End Scenario.

(** ** routers/seasonal_rates.py, the other handlers *)

Module SeasonalRatesCrud.

Import SeasonalRates.

(** Truth value of a string: the empty string is false. *)
Definition str_truthy (s : string) : bool :=
  match s with
  | EmptyString => false
  | String _ _ => true
  end.

(** [order_by(SeasonalRate.start_date)]: ascending start dates. *)
Definition by_start_date (r1 r2 : SeasonalRate.t) : Prop :=
  SeasonalRate.start_date r1 <= SeasonalRate.start_date r2.

#[global] Instance by_start_date_dec (r1 r2 : SeasonalRate.t) :
  Decision (by_start_date r1 r2).
Proof. unfold by_start_date. apply _. Defined.

(** [get_seasonal_rates]. Rows of equal start date come out in the order
    the merge sort leaves them. *)
Definition get_seasonal_rates (package_id : option string)
    (active_only : bool) (current_date : option Z) (db : DB.t)
  : list SeasonalRate.t :=
  let query := DB.seasonal_rates db in
  let query :=
    match package_id with
    | Some package_id =>
        if str_truthy package_id
        then List.filter
               (fun r => bool_decide (SeasonalRate.package_id r = package_id))
               query
        else query
    | None => query
    end in
  let query :=
    if active_only then List.filter SeasonalRate.is_active query else query in
  let query :=
    match current_date with
    | Some current_date =>
        List.filter
          (fun r => (SeasonalRate.start_date r <=? current_date)
                    && (SeasonalRate.end_date r >=? current_date))
          query
    | None => query
    end in
  merge_sort by_start_date query.

Definition get_seasonal_rate (seasonal_rate_id : string) (db : DB.t)
  : result SeasonalRate.t :=
  match query_rate db seasonal_rate_id with
  | None => Raise (HTTPException HTTP_404_NOT_FOUND "Seasonal rate not found")
  | Some seasonal_rate => Ok seasonal_rate
  end.

(** [db_seasonal_rate.is_active = False] *)
Definition deactivate (r : SeasonalRate.t) : SeasonalRate.t :=
  {| SeasonalRate.id := SeasonalRate.id r;
     SeasonalRate.package_id := SeasonalRate.package_id r;
     SeasonalRate.season_name := SeasonalRate.season_name r;
     SeasonalRate.season_type := SeasonalRate.season_type r;
     SeasonalRate.start_date := SeasonalRate.start_date r;
     SeasonalRate.end_date := SeasonalRate.end_date r;
     SeasonalRate.price_multiplier := SeasonalRate.price_multiplier r;
     SeasonalRate.fixed_price := SeasonalRate.fixed_price r;
     SeasonalRate.min_stay := SeasonalRate.min_stay r;
     SeasonalRate.is_active := false |}.

(** [delete_seasonal_rate]; the answer is the ["message"] of the response. *)
Definition delete_seasonal_rate (seasonal_rate_id : string) (db : DB.t)
  : result string * DB.t :=
  match query_rate db seasonal_rate_id with
  | None =>
      (Raise (HTTPException HTTP_404_NOT_FOUND "Seasonal rate not found"), db)
  | Some db_seasonal_rate =>
      (Ok "Seasonal rate deleted successfully",
       {| DB.packages := DB.packages db;
          DB.seasonal_rates :=
            write_rate seasonal_rate_id (deactivate db_seasonal_rate)
                       (DB.seasonal_rates db) |})
  end.

End SeasonalRatesCrud.

(** ** models.py and schemas.py, users and quotes *)

Module UserRole.
Inductive t : Type := AGENT | ADMIN.
#[global] Instance eq_dec : EqDecision t.
Proof. solve_decision. Defined.
End UserRole.

Module UserStatus.
Inductive t : Type := PENDING | APPROVED | REJECTED | SUSPENDED.
#[global] Instance eq_dec : EqDecision t.
Proof. solve_decision. Defined.
End UserStatus.

Module QuoteStatus.
Inductive t : Type := DRAFT | SENT | VIEWED | ACCEPTED | REJECTED | EXPIRED.
#[global] Instance eq_dec : EqDecision t.
Proof. solve_decision. Defined.
End QuoteStatus.

Module User.
Record t : Type := mk {
  id : string;
  role : UserRole.t;
  status : option UserStatus.t
}.
End User.

(** A row of [agents]: the columns the handlers read, next to the part the
    pricing reads. *)
Module AgentRow.
Record t : Type := mk {
  id : string;
  user_id : option string;
  profile : Agent.t
}.
End AgentRow.

(** A row of [packages] with its [is_active] column. *)
Module PackageRow.
Record t : Type := mk {
  package : Package.t;
  is_active : bool
}.
End PackageRow.

(** Datetimes are seconds on the UTC time line. *)
Module TravelDates.
Record t : Type := mk {
  start_date : Z;
  end_date : Z
}.
End TravelDates.

Module PaxDetails.
Record t : Type := mk {
  adults : Z;
  children : Z;
  child_with_bed : Z;
  child_without_bed : Z;
  total : Z
}.
End PaxDetails.

(** The schema [QuoteOption] of a request. *)
Module QuoteOptionIn.
Record t : Type := mk {
  hotels : list HotelOption.t;
  add_ons : list AddOn.t;
  markup : Q;
  markup_type : string;
  total_price : Q
}.
End QuoteOptionIn.

Module QuoteCreate.
Record t : Type := mk {
  client_name : string;
  client_email : string;
  client_phone : option string;
  travel_dates : TravelDates.t;
  pax : PaxDetails.t;
  notes : option string;
  package_id : string;
  options : list QuoteOptionIn.t
}.
End QuoteCreate.

(** A row of [quotes]; its JSON columns hold what [.dict()] made of the
    request. *)
Module Quote.
Record t : Type := mk {
  id : string;
  agent_id : option string;
  package_id : option string;
  client_name : string;
  client_email : string;
  client_phone : option string;
  travel_dates : TravelDates.t;
  pax : PaxDetails.t;
  options : list QuoteOptionIn.t;
  pricing : list PricingBreakdown.t;
  status : QuoteStatus.t;
  valid_until : Z;
  notes : option string;
  created_at : Z
}.
End Quote.

Module PaginatedResponse.
Record t : Type := mk {
  items : list Quote.t;
  total : Z;
  page : Z;
  size : Z;
  pages : Z
}.
End PaginatedResponse.

(** ** routers/quotes.py, the handlers

    [user_id] is what [get_current_user_id(credentials)] returned, [uuid]
    the value of [str(uuid.uuid4())], [utcnow] that of [datetime.utcnow()]
    and [db_now] the clock of the database server. *)

Module QuoteHandlers.

Module Store.
Record t : Type := mk {
  users : list User.t;
  agents : list AgentRow.t;
  packages : list PackageRow.t;
  quotes : list Quote.t
}.
End Store.

(** What a handler does: it returns, or raises one of the exceptions of
    [Py], or trips over an attribute of [None]. *)
Inductive outcome (A : Type) : Type :=
| Returns (a : A)
| Raises (e : error)
| AttributeError (attr : string).
Arguments Returns {A} a.
Arguments Raises {A} e.
Arguments AttributeError {A} attr.

Definition HTTP_403_FORBIDDEN : Z := 403.

(** [timedelta(days=n)] *)
Definition timedelta_days (n : Z) : Z := n * 86400.



(** [db.query(Agent).filter(Agent.user_id == user_id).first()] *)
Definition query_agent (db : Store.t) (user_id : string)
  : option AgentRow.t :=
  find (fun a => bool_decide (AgentRow.user_id a = Some user_id))
       (Store.agents db).

(** [db.query(User).filter(User.id == user_id).first()] *)
Definition query_user (db : Store.t) (user_id : string) : option User.t :=
  find (fun u => bool_decide (User.id u = user_id)) (Store.users db).


(** [db.query(Quote).filter(Quote.id == quote_id).first()] *)
Definition query_quote (db : Store.t) (quote_id : string) : option Quote.t :=
  find (fun q => bool_decide (Quote.id q = quote_id)) (Store.quotes db).

Definition set_quotes (db : Store.t) (quotes : list Quote.t) : Store.t :=
  {| Store.users := Store.users db;
     Store.agents := Store.agents db;
     Store.packages := Store.packages db;
     Store.quotes := quotes |}.

(** [db.add(quote); db.commit()] *)
Definition add_quote (db : Store.t) (quote : Quote.t) : Store.t :=
  set_quotes db (Store.quotes db ++ [quote]).

(** The row fetched by [query_quote] is the one written back on commit. *)
Fixpoint write_quote (quote_id : string) (quote' : Quote.t)
    (rows : list Quote.t) : list Quote.t :=
  match rows with
  | [] => []
  | q :: rest =>
      if bool_decide (Quote.id q = quote_id) then quote' :: rest
      else q :: write_quote quote_id quote' rest
  end.

(** [db.delete(quote)] for the row fetched by [query_quote]. *)
Fixpoint remove_quote (quote_id : string) (rows : list Quote.t)
  : list Quote.t :=
  match rows with
  | [] => []
  | q :: rest =>
      if bool_decide (Quote.id q = quote_id) then rest
      else q :: remove_quote quote_id rest
  end.

(** [not agent or quote.agent_id != agent.id] *)
Definition not_owner (agent : option AgentRow.t) (quote : Quote.t) : bool :=
  match agent with
  | None => true
  | Some agent =>
      negb (bool_decide (Quote.agent_id quote = Some (AgentRow.id agent)))
  end.


Definition get_quote (quote_id user_id : string) (db : Store.t)
  : outcome Quote.t :=
  match query_quote db quote_id with
  | None => Raises (HTTPException HTTP_404_NOT_FOUND "Quote not found")
  | Some quote =>
      match query_user db user_id with
      | None => AttributeError "role"
      | Some user =>
          if negb (bool_decide (User.role user = UserRole.ADMIN))
          then
            if not_owner (query_agent db user_id) quote
            then Raises (HTTPException HTTP_403_FORBIDDEN "Access denied")
            else Returns quote
          else Returns quote
      end
  end.

(** [quote.status = QuoteStatus.SENT] *)
Definition mark_sent (q : Quote.t) : Quote.t :=
  {| Quote.id := Quote.id q;
     Quote.agent_id := Quote.agent_id q;
     Quote.package_id := Quote.package_id q;
     Quote.client_name := Quote.client_name q;
     Quote.client_email := Quote.client_email q;
     Quote.client_phone := Quote.client_phone q;
     Quote.travel_dates := Quote.travel_dates q;
     Quote.pax := Quote.pax q;
     Quote.options := Quote.options q;
     Quote.pricing := Quote.pricing q;
     Quote.status := QuoteStatus.SENT;
     Quote.valid_until := Quote.valid_until q;
     Quote.notes := Quote.notes q;
     Quote.created_at := Quote.created_at q |}.

(** [send_quote]; the answer is the ["message"] of the response. *)
Definition send_quote (quote_id user_id : string) (db : Store.t)
  : outcome string * Store.t :=
  match query_quote db quote_id with
  | None => (Raises (HTTPException HTTP_404_NOT_FOUND "Quote not found"), db)
  | Some quote =>
      if not_owner (query_agent db user_id) quote
      then (Raises (HTTPException HTTP_403_FORBIDDEN "Access denied"), db)
      else
        (Returns "Quote sent successfully",
         set_quotes db (write_quote quote_id (mark_sent quote)
                                    (Store.quotes db)))
  end.

Definition duplicate_quote (quote_id user_id uuid : string)
    (utcnow db_now : Z) (db : Store.t) : outcome Quote.t * Store.t :=
  match query_quote db quote_id with
  | None => (Raises (HTTPException HTTP_404_NOT_FOUND "Quote not found"), db)
  | Some original_quote =>
      if not_owner (query_agent db user_id) original_quote
      then (Raises (HTTPException HTTP_403_FORBIDDEN "Access denied"), db)
      else
        let new_quote :=
          {| Quote.id := uuid;
             Quote.agent_id := Quote.agent_id original_quote;
             Quote.package_id := Quote.package_id original_quote;
             Quote.client_name :=
               "Copy of " +:+ Quote.client_name original_quote;
             Quote.client_email := Quote.client_email original_quote;
             Quote.client_phone := Quote.client_phone original_quote;
             Quote.travel_dates := Quote.travel_dates original_quote;
             Quote.pax := Quote.pax original_quote;
             Quote.options := Quote.options original_quote;
             Quote.pricing := Quote.pricing original_quote;
             Quote.status := QuoteStatus.DRAFT;
             Quote.valid_until := utcnow + timedelta_days 30;
             Quote.notes := Quote.notes original_quote;
             Quote.created_at := db_now |} in
        (Returns new_quote, add_quote db new_quote)
  end.

(** [delete_quote]; the answer is the ["message"] of the response. *)
Definition delete_quote (quote_id user_id : string) (db : Store.t)
  : outcome string * Store.t :=
  match query_quote db quote_id with
  | None => (Raises (HTTPException HTTP_404_NOT_FOUND "Quote not found"), db)
  | Some quote =>
      if not_owner (query_agent db user_id) quote
      then (Raises (HTTPException HTTP_403_FORBIDDEN "Access denied"), db)
      else
        if negb (bool_decide (Quote.status quote = QuoteStatus.DRAFT))
        then (Raises (HTTPException HTTP_400_BAD_REQUEST
                        "Can only delete draft quotes"), db)
        else
          (Returns "Quote deleted successfully",
           set_quotes db (remove_quote quote_id (Store.quotes db)))
  end.


(** [order_by(desc(Quote.created_at))]: newest first. *)
Definition newest_first (q1 q2 : Quote.t) : Prop :=
  Quote.created_at q2 <= Quote.created_at q1.

#[global] Instance newest_first_dec (q1 q2 : Quote.t) :
  Decision (newest_first q1 q2).
Proof. unfold newest_first. apply _. Defined.

Section Listing.

(** [column.ilike(pattern)] of the database: does the value match the
    pattern, whatever the case. *)
Variable ilike : string -> string -> bool.

(** The query of [list_quotes], filtered and ordered, before paging. Rows
    of equal [created_at] come out in the order the merge sort leaves
    them. *)
Definition quotes_query (agent : AgentRow.t)
    (status : option QuoteStatus.t) (search : option string) (db : Store.t)
  : list Quote.t :=
  let query :=
    List.filter
      (fun q => bool_decide (Quote.agent_id q = Some (AgentRow.id agent)))
      (Store.quotes db) in
  let query :=
    match status with
    | Some status =>
        List.filter (fun q => bool_decide (Quote.status q = status)) query
    | None => query
    end in
  let query :=
    match search with
    | Some search =>
        if SeasonalRatesCrud.str_truthy search
        then List.filter
               (fun q => ilike (Quote.client_name q) ("%" +:+ search +:+ "%")
                         || ilike (Quote.client_email q)
                                  ("%" +:+ search +:+ "%"))
               query
        else query
    | None => query
    end in
  merge_sort newest_first query.

Definition list_quotes (user_id : string) (page size : Z)
    (status : option QuoteStatus.t) (search : option string) (db : Store.t)
  : outcome PaginatedResponse.t :=
  match query_agent db user_id with
  | None =>
      Raises (HTTPException HTTP_404_NOT_FOUND "Agent profile not found")
  | Some agent =>
      let query := quotes_query agent status search db in
      let total := Z.of_nat (length query) in
      let quotes :=
        take (Z.to_nat size) (drop (Z.to_nat ((page - 1) * size)) query) in
      Returns {| PaginatedResponse.items := quotes;
                 PaginatedResponse.total := total;
                 PaginatedResponse.page := page;
                 PaginatedResponse.size := size;
                 PaginatedResponse.pages := (total + size - 1) / size |}
  end.

End Listing.

End QuoteHandlers.

(** ** Further properties, in plain terms *)

Module Props.

(** The table without its first row of the given id. *)
Fixpoint drop_rate (seasonal_rate_id : string) (rows : list SeasonalRate.t)
  : list SeasonalRate.t :=
  match rows with
  | [] => []
  | r :: rest =>
      if bool_decide (SeasonalRate.id r = seasonal_rate_id) then rest
      else r :: drop_rate seasonal_rate_id rest
  end.

(** Every rate of the table starts before it ends. *)
Definition well_formed (rows : list SeasonalRate.t) : Prop :=
  Forall (fun r => SeasonalRate.start_date r < SeasonalRate.end_date r) rows.

(** The rate passes the filters of [get_seasonal_rates]. *)
Definition listed (package_id : option string) (active_only : bool)
    (current_date : option Z) (r : SeasonalRate.t) : Prop :=
  (forall p, package_id = Some p -> p <> "" -> SeasonalRate.package_id r = p) /\
  (active_only = true -> SeasonalRate.is_active r = true) /\
  (forall d, current_date = Some d -> Spec.covers r d).

(** The loyalty tiers in ascending order; no tier ranks lowest. *)
Definition tier_rank (tier : option TierLevel) : nat :=
  match tier with
  | None => 0
  | Some BRONZE => 1
  | Some SILVER => 2
  | Some GOLD => 3
  | Some PLATINUM => 4
  end.

(** The caller has an agent profile and the quote belongs to it. *)
Definition owns (db : QuoteHandlers.Store.t) (user_id : string)
    (q : Quote.t) : Prop :=
  exists a,
    QuoteHandlers.query_agent db user_id = Some a /\
    Quote.agent_id q = Some (AgentRow.id a).

(** The quote [q] with another status. *)
Definition with_status (q : Quote.t) (status : QuoteStatus.t) : Quote.t :=
  {| Quote.id := Quote.id q;
     Quote.agent_id := Quote.agent_id q;
     Quote.package_id := Quote.package_id q;
     Quote.client_name := Quote.client_name q;
     Quote.client_email := Quote.client_email q;
     Quote.client_phone := Quote.client_phone q;
     Quote.travel_dates := Quote.travel_dates q;
     Quote.pax := Quote.pax q;
     Quote.options := Quote.options q;
     Quote.pricing := Quote.pricing q;
     Quote.status := status;
     Quote.valid_until := Quote.valid_until q;
     Quote.notes := Quote.notes q;
     Quote.created_at := Quote.created_at q |}.

End Props.

(** ** Further concrete inputs *)

Module Examples.

Import QuoteHandlers Scenario.

(** Two hotels, two add-ons and a flat markup of 20. *)
Definition addon_option : QuoteOption.t :=
  QuoteOption.mk [hotel 50%Q; hotel 40%Q]
                 (Some [AddOn.mk 15%Q; AddOn.mk 5%Q]) (Some 20%Q) (Some "flat").

Definition option_in : QuoteOptionIn.t :=
  QuoteOptionIn.mk [hotel 50%Q; hotel 40%Q] [AddOn.mk 15%Q] 10%Q "percentage"
                   0%Q.

Definition two_adults : PaxDetails.t := PaxDetails.mk 2 0 0 0 2.


Definition quote_of (id agent_id : string) (status : QuoteStatus.t)
    (created_at : Z) : Quote.t :=
  Quote.mk id (Some agent_id) (Some "pkg-1") "Ann" "ann@example.com" None
           (TravelDates.mk 0 259200) two_adults [option_in] []
           status 2592000 None created_at.

(** Two approved agents and an admin; agent a1 has two quotes, a2 one. *)
Definition store : Store.t :=
  Store.mk
    [ User.mk "u1" UserRole.AGENT (Some UserStatus.APPROVED);
      User.mk "u2" UserRole.AGENT (Some UserStatus.APPROVED);
      User.mk "u3" UserRole.ADMIN (Some UserStatus.APPROVED) ]
    [ AgentRow.mk "a1" (Some "u1") bronze;
      AgentRow.mk "a2" (Some "u2") platinum ]
    [ PackageRow.mk e2e_package true ]
    [ quote_of "q1" "a1" QuoteStatus.DRAFT 100;
      quote_of "q2" "a1" QuoteStatus.ACCEPTED 200;
      quote_of "q3" "a2" QuoteStatus.DRAFT 300 ].

(** A pattern match that accepts everything. *)
Definition any_match (value pattern : string) : bool := true.

(** Two rates of one package that share no date. *)
Definition db_two_rates : SeasonalRates.DB.t :=
  SeasonalRates.DB.mk [sample_package]
                      [rate "r1" 1 10 1.5%Q None; rate "r2" 20 30 1.2%Q None].

End Examples.

(** ** Facts about routers/quotes.py *)

Module QuotesFacts.

Import Quotes Spec Scenario.

(** *** Lists, sums and the error monad *)

Lemma enumerate_from {A B} (f : nat * A -> B) (xs : list A) (k : nat) :
  map f (zip (seq k (length xs)) xs)
  = imap (fun i x => f ((k + i)%nat, x)) xs.
Proof.
  revert k. induction xs as [|x rest IH]; intros k; [reflexivity |].
  cbn [length seq zip zip_with map imap]. rewrite Nat.add_0_r. f_equal.
  rewrite IH. apply imap_ext. intros i y _. cbn. do 2 f_equal. lia.
Qed.

Lemma enumerate_imap {A B} (f : nat * A -> B) (xs : list A) :
  map f (enumerate xs) = imap (fun i x => f (i, x)) xs.
Proof. unfold enumerate. apply enumerate_from. Qed.

Lemma fold_left_Qsum {A} (f : A -> Q) (xs : list A) (acc : Q) :
  (fold_left (fun a x => a + f x) xs acc == acc + Qsum (map f xs))%Q.
Proof.
  unfold Qsum. revert acc.
  induction xs as [|x rest IH]; intros acc; cbn [fold_left map fold_right].
  - ring.
  - rewrite IH. ring.
Qed.

Lemma for_each_total {A B} (f : A -> result B) (xs : list A) :
  (forall x, x ∈ xs -> exists y, f x = Ok y) ->
  exists ys, for_each f xs = Ok ys /\ Forall2 (fun x y => f x = Ok y) xs ys.
Proof.
  induction xs as [|x rest IH]; intros Hall.
  - exists []. split; [reflexivity | constructor].
  - destruct (Hall x) as [y Hy]; [left |].
    destruct IH as (ys & Hys & Hrel).
    { intros x' Hx'. apply Hall. right. exact Hx'. }
    exists (y :: ys). cbn [for_each]. rewrite Hy. cbn [bind]. rewrite Hys.
    split; [reflexivity | constructor; assumption].
Qed.

(** *** Rooms *)

Lemma Qceiling_half (n : Z) : Qceiling (inject_Z n / 2) = (n + 1) / 2.
Proof.
  unfold Qceiling, Qfloor, Qdiv, Qmult, Qinv, Qopp, inject_Z. cbn.
  rewrite Z.mul_1_r. change (Z.pos (1 * 2)) with 2.
  pose proof (Z.div_mod (- n) 2 ltac:(lia)).
  pose proof (Z.mod_pos_bound (- n) 2 ltac:(lia)).
  pose proof (Z.div_mod (n + 1) 2 ltac:(lia)).
  pose proof (Z.mod_pos_bound (n + 1) 2 ltac:(lia)).
  lia.
Qed.

(** *** Vehicles *)

Lemma first_fitting_first (total_pax : Z) (vehicles : list Vehicle.t)
    (i : nat) (v : Vehicle.t) :
  vehicles !! i = Some v ->
  total_pax <= Vehicle.capacity v ->
  (forall j w, (j < i)%nat -> vehicles !! j = Some w ->
               Vehicle.capacity w < total_pax) ->
  first_fitting total_pax vehicles = Some v.
Proof.
  revert i. induction vehicles as [|u rest IH]; intros i Hi Hfit Hbefore.
  - discriminate.
  - destruct i as [|i]; simpl in *.
    + injection Hi as ->.
      destruct (Z.leb_spec total_pax (Vehicle.capacity v)); [reflexivity | lia].
    + pose proof (Hbefore 0%nat u ltac:(lia) eq_refl) as Hu.
      destruct (Z.leb_spec total_pax (Vehicle.capacity u)); [lia |].
      apply (IH i); auto.
      intros j w Hj Hw. apply (Hbefore (S j) w); [lia | exact Hw].
Qed.

Lemma select_vehicle_cases (total_pax : Z) :
  select_vehicle total_pax =
    Ok (if total_pax <=? 6 then Vehicle.mk "Avanza" 6 35
        else if total_pax <=? 8 then Vehicle.mk "Innova" 8 45
        else if total_pax <=? 15 then Vehicle.mk "ELF" 15 65
        else Vehicle.mk "Bus" 25 85).
Proof.
  unfold select_vehicle, VEHICLE_PRICING, first_fitting.
  cbn [Vehicle.capacity].
  destruct (Z.leb_spec total_pax 6); [reflexivity |].
  destruct (Z.leb_spec total_pax 8); [reflexivity |].
  destruct (Z.leb_spec total_pax 15); [reflexivity |].
  destruct (Z.leb_spec total_pax 25); reflexivity.
Qed.

(** *** The hotel loop *)

Lemma hotel_loop_sum (package : Package.t) (rooms : Z)
    (hotels : list HotelOption.t) :
  (hotel_loop package rooms hotels
   == Qsum (imap (fun i hotel => stay rooms hotel (leg_nights package i))
                 hotels))%Q.
Proof.
  unfold hotel_loop.
  rewrite <- (enumerate_imap
                (fun ih => stay rooms (snd ih) (leg_nights package (fst ih)))).
  change (hotel_step package rooms)
    with (fun a ih =>
            (a + stay rooms (snd ih) (leg_nights package (fst ih)))%Q).
  rewrite fold_left_Qsum. ring.
Qed.

Lemma leg_nights_or_one (package : Package.t) (i : nat) :
  leg_nights package i = nights_or_one (Package.nights package) i.
Proof.
  unfold leg_nights, nights_or_one.
  destruct (Nat.ltb_spec i (length (Package.nights package))) as [Hlt | Hge].
  - destruct (lookup_lt_is_Some_2 _ _ Hlt) as [n Hn]. rewrite Hn.
    symmetry. apply nth_lookup_Some with (d := 0) in Hn. exact Hn.
  - rewrite (lookup_ge_None_2 _ _ Hge). reflexivity.
Qed.

Lemma imap_nights_short {B} (g : HotelOption.t -> Z -> B)
    (hotels : list HotelOption.t) (nights : list Z) :
  (length hotels <= length nights)%nat ->
  imap (fun i hotel =>
          g hotel (match nights !! i with Some n => n | None => 1 end))
       hotels
  = zip_with g hotels nights.
Proof.
  revert nights.
  induction hotels as [|h rest IH]; intros nights Hlen; [reflexivity |].
  destruct nights as [|n nights]; cbn in Hlen; [lia |].
  cbn [imap zip_with]. f_equal. rewrite <- IH by lia.
  apply imap_ext. reflexivity.
Qed.

Lemma imap_nights_long (hotels : list HotelOption.t) (nights : list Z) :
  (length nights <= length hotels)%nat ->
  imap (fun i (_ : HotelOption.t) =>
          match nights !! i with Some n => n | None => 1 end)
       hotels
  = nights ++ replicate (length hotels - length nights) 1.
Proof.
  revert nights. induction hotels as [|h rest IH]; intros nights Hlen.
  - destruct nights; [reflexivity | cbn in Hlen; lia].
  - destruct nights as [|n nights]; cbn [imap].
    + specialize (IH [] ltac:(cbn; lia)). cbn in IH |- *.
      rewrite Nat.sub_0_r in IH.
      f_equal. rewrite <- IH. apply imap_ext. reflexivity.
    + cbn in Hlen. cbn. f_equal. rewrite <- IH by lia.
      apply imap_ext. reflexivity.
Qed.

Lemma charged_nights_imap (package : Package.t) (option : QuoteOption.t) :
  charged_nights package option
  = imap (fun i (_ : HotelOption.t) => leg_nights package i)
         (QuoteOption.hotels option).
Proof. unfold charged_nights. apply enumerate_imap. Qed.

(** *** One option *)

Lemma price_option_ok (package : Package.t) (pax : gmap string Z)
    (agent : Agent.t) (option : QuoteOption.t) (total adults : Z) :
  pax !! "total" = Some total ->
  pax !! "adults" = Some adults ->
  exists b,
    price_option package pax agent option = Ok b /\
    PricingBreakdown.hotel_cost b
    = hotel_loop package (rooms_of pax adults) (QuoteOption.hotels option) /\
    (PricingBreakdown.final_price b
     == PricingBreakdown.base_price b + PricingBreakdown.hotel_cost b
        + PricingBreakdown.vehicle_cost b + PricingBreakdown.addon_cost b
        - PricingBreakdown.tier_discount b + PricingBreakdown.markup b)%Q.
Proof.
  intros Htotal Hadults. unfold price_option, getitem.
  rewrite Htotal, Hadults. cbn [bind].
  rewrite select_vehicle_cases. cbn [bind].
  eexists. split; [reflexivity |].
  cbn [PricingBreakdown.hotel_cost PricingBreakdown.final_price
       PricingBreakdown.base_price PricingBreakdown.vehicle_cost
       PricingBreakdown.addon_cost PricingBreakdown.tier_discount
       PricingBreakdown.markup].
  split; [reflexivity | ring].
Qed.

Lemma pricing_ok (package : Package.t) (options : list QuoteOption.t)
    (pax : gmap string Z) (agent : Agent.t) (total adults : Z) :
  pax !! "total" = Some total ->
  pax !! "adults" = Some adults ->
  exists bs,
    calculate_quote_pricing package options pax agent = Ok bs /\
    Forall2 (fun option b => price_option package pax agent option = Ok b)
            options bs.
Proof.
  intros Htotal Hadults. unfold calculate_quote_pricing.
  apply for_each_total. intros option _.
  destruct (price_option_ok package pax agent option total adults
                            Htotal Hadults) as (b & Hb & _).
  exists b. exact Hb.
Qed.

(** *** Specified properties *)

(** C1. In the end-to-end scenario (base price 100, 3 days, legs of 1 and
    2 nights, two adults, hotels at 50 and 40 a night, no add-ons, a 10
    percent markup, a Bronze agent) [calculate_quote_pricing] returns
    exactly one breakdown: base 200, hotels 130, vehicle 105, add-ons 0,
    tier discount 10, markup 42.5, final price 467.5. *)
Theorem e2e_scenario_breakdown :
  exists b,
    calculate_quote_pricing e2e_package [e2e_option] e2e_pax bronze = Ok [b] /\
    (PricingBreakdown.base_price b == 200 /\
     PricingBreakdown.hotel_cost b == 130 /\
     PricingBreakdown.vehicle_cost b == 105 /\
     PricingBreakdown.addon_cost b == 0 /\
     PricingBreakdown.tier_discount b == 10 /\
     PricingBreakdown.markup b == 42.5 /\
     PricingBreakdown.final_price b == 467.5)%Q.
Proof.
  eexists. split.
  - vm_compute. reflexivity.
  - cbn [PricingBreakdown.hotel_cost PricingBreakdown.final_price
         PricingBreakdown.base_price PricingBreakdown.vehicle_cost
         PricingBreakdown.addon_cost PricingBreakdown.tier_discount
         PricingBreakdown.markup].
    repeat split; reflexivity.
Qed.

(** C2, as stated, fails. With legs of 1 and 2 nights and a single hotel
    entry at 50 a night, the loop runs once, for leg 0 only: the night
    counts it charges are [[1]], not one count per leg with the leg
    without a hotel entry counted as one night ([[1; 1]]), and the hotel
    cost is 50. *)
Lemma hotels_shorter_default_fails :
  charged_nights e2e_package one_hotel_option = [1] /\
  leg_default_nights e2e_package one_hotel_option = [1; 1] /\
  charged_nights e2e_package one_hotel_option
  <> leg_default_nights e2e_package one_hotel_option /\
  exists b,
    calculate_quote_pricing e2e_package [one_hotel_option] e2e_pax bronze
    = Ok [b] /\
    (PricingBreakdown.hotel_cost b == 50)%Q.
Proof.
  split; [reflexivity |]. split; [reflexivity |]. split; [discriminate |].
  eexists. split; [vm_compute; reflexivity | reflexivity].
Qed.

(** C2, amended. When an option has fewer hotel entries than the package
    has legs, the pricing succeeds and the hotel cost is the sum, over the
    hotel entries only, of price per night times the nights of the leg of
    the same index times rooms; the night counts charged are the first
    [len(hotels)] of the package, no default is used, and a leg without a
    hotel entry is charged nothing. *)
Theorem hotels_shorter_cost (package : Package.t)
    (options : list QuoteOption.t) (pax : gmap string Z) (agent : Agent.t)
    (total adults : Z) :
  pax !! "total" = Some total ->
  pax !! "adults" = Some adults ->
  exists bs,
    calculate_quote_pricing package options pax agent = Ok bs /\
    length bs = length options /\
    forall (i : nat) (option : QuoteOption.t) (b : PricingBreakdown.t),
      options !! i = Some option ->
      bs !! i = Some b ->
      (length (QuoteOption.hotels option)
       < length (Package.nights package))%nat ->
      (PricingBreakdown.hotel_cost b
       == Qsum (zip_with (stay (rooms_of pax adults))
                         (QuoteOption.hotels option)
                         (Package.nights package)))%Q /\
      charged_nights package option
      = take (length (QuoteOption.hotels option)) (Package.nights package).
Proof.
  intros Htotal Hadults.
  destruct (pricing_ok package options pax agent total adults
                       Htotal Hadults) as (bs & Hbs & Hrel).
  exists bs. split; [exact Hbs |].
  split; [symmetry; exact (Forall2_length _ _ _ Hrel) |].
  intros i option b Hoption Hb Hshort.
  pose proof (Forall2_lookup_lr _ _ _ _ _ _ Hrel Hoption Hb) as Hprice.
  destruct (price_option_ok package pax agent option total adults
                            Htotal Hadults) as (b' & Hb' & Hcost & _).
  rewrite Hprice in Hb'. injection Hb' as <-.
  split.
  - rewrite Hcost, hotel_loop_sum. unfold leg_nights.
    rewrite (imap_nights_short (stay (rooms_of pax adults))) by lia.
    reflexivity.
  - rewrite charged_nights_imap. unfold leg_nights.
    rewrite (imap_nights_short (fun _ n => n)) by lia.
    generalize (QuoteOption.hotels option) (Package.nights package).
    clear. intros hotels. induction hotels as [|h rest IH]; intros [|n nights];
      cbn; try reflexivity. f_equal. apply IH.
Qed.

Lemma hotels_shorter_cost_witness :
  e2e_pax !! "total" = Some 2 /\
  e2e_pax !! "adults" = Some 2 /\
  exists bs,
    calculate_quote_pricing e2e_package [one_hotel_option] e2e_pax bronze
    = Ok bs /\
    length bs = length [one_hotel_option] /\
    forall (i : nat) (option : QuoteOption.t) (b : PricingBreakdown.t),
      [one_hotel_option] !! i = Some option ->
      bs !! i = Some b ->
      (length (QuoteOption.hotels option)
       < length (Package.nights e2e_package))%nat ->
      (PricingBreakdown.hotel_cost b
       == Qsum (zip_with (stay (rooms_of e2e_pax 2))
                         (QuoteOption.hotels option)
                         (Package.nights e2e_package)))%Q /\
      charged_nights e2e_package option
      = take (length (QuoteOption.hotels option))
             (Package.nights e2e_package).
Proof.
  split; [reflexivity |]. split; [reflexivity |].
  apply (hotels_shorter_cost e2e_package [one_hotel_option] e2e_pax bronze 2 2);
    reflexivity.
Defined.

(** C4, as stated, fails. A Platinum agent quoting a one-day package of
    base price 1 for six adults, with a hotel at 10 a night and no markup,
    gets a subtotal of 71 and a tier discount of 120: the final price is
    -49, not 0. *)
Lemma final_price_negative :
  exists b,
    calculate_quote_pricing cheap_package [cheap_option] six_pax platinum
    = Ok [b] /\
    (PricingBreakdown.tier_discount b == 120 /\
     PricingBreakdown.final_price b == -49 /\
     PricingBreakdown.final_price b < 0)%Q.
Proof.
  eexists. split; [vm_compute; reflexivity |].
  cbn [PricingBreakdown.final_price PricingBreakdown.tier_discount].
  repeat split; reflexivity.
Qed.

(** C4, amended. The final price of every returned breakdown is the
    subtotal minus the tier discount plus the markup, with no floor at 0;
    it is non-negative whenever the tier discount is at most the subtotal
    and the markup amount is non-negative. *)
Theorem final_price_not_floored (package : Package.t)
    (options : list QuoteOption.t) (pax : gmap string Z) (agent : Agent.t)
    (total adults : Z) :
  pax !! "total" = Some total ->
  pax !! "adults" = Some adults ->
  exists bs,
    calculate_quote_pricing package options pax agent = Ok bs /\
    length bs = length options /\
    forall b : PricingBreakdown.t,
      b ∈ bs ->
      let subtotal :=
        (PricingBreakdown.base_price b + PricingBreakdown.hotel_cost b
         + PricingBreakdown.vehicle_cost b + PricingBreakdown.addon_cost b)%Q in
      (PricingBreakdown.final_price b
       == subtotal - PricingBreakdown.tier_discount b
          + PricingBreakdown.markup b)%Q /\
      ((PricingBreakdown.tier_discount b <= subtotal)%Q ->
       (0 <= PricingBreakdown.markup b)%Q ->
       (0 <= PricingBreakdown.final_price b)%Q).
Proof.
  intros Htotal Hadults.
  destruct (pricing_ok package options pax agent total adults
                       Htotal Hadults) as (bs & Hbs & Hrel).
  exists bs. split; [exact Hbs |].
  split; [symmetry; exact (Forall2_length _ _ _ Hrel) |].
  intros b Hin subtotal. subst subtotal.
  apply list_elem_of_lookup in Hin as [i Hb].
  destruct (Forall2_lookup_r _ _ _ _ _ Hrel Hb) as (option & _ & Hprice).
  destruct (price_option_ok package pax agent option total adults
                            Htotal Hadults) as (b' & Hb' & _ & Hfinal).
  rewrite Hprice in Hb'. injection Hb' as <-.
  split; [exact Hfinal |].
  intros Hdiscount Hmarkup. rewrite Hfinal. lra.
Qed.

Lemma final_price_not_floored_witness :
  six_pax !! "total" = Some 6 /\
  six_pax !! "adults" = Some 6 /\
  exists bs,
    calculate_quote_pricing cheap_package [cheap_option] six_pax platinum
    = Ok bs /\
    length bs = length [cheap_option] /\
    forall b : PricingBreakdown.t,
      b ∈ bs ->
      let subtotal :=
        (PricingBreakdown.base_price b + PricingBreakdown.hotel_cost b
         + PricingBreakdown.vehicle_cost b + PricingBreakdown.addon_cost b)%Q in
      (PricingBreakdown.final_price b
       == subtotal - PricingBreakdown.tier_discount b
          + PricingBreakdown.markup b)%Q /\
      ((PricingBreakdown.tier_discount b <= subtotal)%Q ->
       (0 <= PricingBreakdown.markup b)%Q ->
       (0 <= PricingBreakdown.final_price b)%Q).
Proof.
  split; [reflexivity |]. split; [reflexivity |].
  apply (final_price_not_floored cheap_package [cheap_option] six_pax
                                 platinum 6 6); reflexivity.
Defined.

(** C5. For non-negative [a], [c1], [c2], [calculate_rooms a c1 c2] gives
    [max(1, ceil((a + c1) / 2))] rooms, whatever [c2] is, and one room for
    an empty party. *)
Theorem calculate_rooms_ceiling (a c1 c2 : Z) :
  0 <= a -> 0 <= c1 -> 0 <= c2 ->
  RoomCalc.rooms (calculate_rooms a c1 c2) = rooms_needed (a + c1) /\
  (forall c2' : Z,
      0 <= c2' ->
      RoomCalc.rooms (calculate_rooms a c1 c2')
      = RoomCalc.rooms (calculate_rooms a c1 c2)) /\
  RoomCalc.rooms (calculate_rooms 0 0 0) = 1.
Proof.
  intros _ _ _. unfold calculate_rooms, rooms_needed.
  cbn [RoomCalc.rooms]. rewrite Qceiling_half.
  repeat split; reflexivity.
Qed.

Lemma calculate_rooms_ceiling_witness :
  0 <= 3 /\ 0 <= 2 /\ 0 <= 4 /\
  RoomCalc.rooms (calculate_rooms 3 2 4) = rooms_needed (3 + 2) /\
  (forall c2' : Z,
      0 <= c2' ->
      RoomCalc.rooms (calculate_rooms 3 2 c2')
      = RoomCalc.rooms (calculate_rooms 3 2 4)) /\
  RoomCalc.rooms (calculate_rooms 0 0 0) = 1.
Proof.
  split; [lia |]. split; [lia |]. split; [lia |].
  apply (calculate_rooms_ceiling 3 2 4); lia.
Defined.

(** C6. For a non-negative [total_pax], [select_vehicle] raises nothing
    and returns the first tier of [VEHICLE_PRICING], whose capacities are
    6, 8, 15 and 25 in that order, that can seat the party: Avanza up to
    6, Innova for 7 and 8, ELF for 9 to 15, Bus from 16 on, also beyond
    25. *)
Theorem select_vehicle_first_fit (total_pax : Z) :
  0 <= total_pax ->
  (exists v, select_vehicle total_pax = Ok v) /\
  Vehicle.capacity <$> VEHICLE_PRICING = [6; 8; 15; 25] /\
  (forall (i : nat) (v : Vehicle.t),
      VEHICLE_PRICING !! i = Some v ->
      total_pax <= Vehicle.capacity v ->
      (forall j w, (j < i)%nat -> VEHICLE_PRICING !! j = Some w ->
                   Vehicle.capacity w < total_pax) ->
      select_vehicle total_pax = Ok v) /\
  (total_pax <= 6 ->
   select_vehicle total_pax = Ok (Vehicle.mk "Avanza" 6 35)) /\
  (6 < total_pax <= 8 ->
   select_vehicle total_pax = Ok (Vehicle.mk "Innova" 8 45)) /\
  (8 < total_pax <= 15 ->
   select_vehicle total_pax = Ok (Vehicle.mk "ELF" 15 65)) /\
  (15 < total_pax -> select_vehicle total_pax = Ok (Vehicle.mk "Bus" 25 85)).
Proof.
  intros _.
  split; [rewrite select_vehicle_cases; eexists; reflexivity |].
  split; [reflexivity |].
  split.
  { intros i v Hv Hfit Hbefore. unfold select_vehicle.
    rewrite (first_fitting_first total_pax VEHICLE_PRICING i v Hv Hfit Hbefore).
    reflexivity. }
  rewrite select_vehicle_cases.
  repeat split; intros Hrange;
    repeat (match goal with
            | |- context [?a <=? ?b] => destruct (Z.leb_spec a b); try lia
            end);
    reflexivity.
Qed.

Lemma select_vehicle_first_fit_witness :
  0 <= 30 /\
  (exists v, select_vehicle 30 = Ok v) /\
  Vehicle.capacity <$> VEHICLE_PRICING = [6; 8; 15; 25] /\
  (forall (i : nat) (v : Vehicle.t),
      VEHICLE_PRICING !! i = Some v ->
      30 <= Vehicle.capacity v ->
      (forall j w, (j < i)%nat -> VEHICLE_PRICING !! j = Some w ->
                   Vehicle.capacity w < 30) ->
      select_vehicle 30 = Ok v) /\
  (30 <= 6 -> select_vehicle 30 = Ok (Vehicle.mk "Avanza" 6 35)) /\
  (6 < 30 <= 8 -> select_vehicle 30 = Ok (Vehicle.mk "Innova" 8 45)) /\
  (8 < 30 <= 15 -> select_vehicle 30 = Ok (Vehicle.mk "ELF" 15 65)) /\
  (15 < 30 -> select_vehicle 30 = Ok (Vehicle.mk "Bus" 25 85)).
Proof.
  split; [lia |]. apply (select_vehicle_first_fit 30). lia.
Defined.

(** C10. When an option has more hotel entries than the package has legs,
    the pricing succeeds and every hotel entry is charged: the hotel cost
    is the sum over the hotel entries [i] of price per night times
    ([nights[i]] if [i < len(nights)], else 1) times rooms, the entries
    beyond the legs counting one night each. *)
Theorem hotels_longer_cost (package : Package.t)
    (options : list QuoteOption.t) (pax : gmap string Z) (agent : Agent.t)
    (total adults : Z) :
  pax !! "total" = Some total ->
  pax !! "adults" = Some adults ->
  exists bs,
    calculate_quote_pricing package options pax agent = Ok bs /\
    length bs = length options /\
    forall (i : nat) (option : QuoteOption.t) (b : PricingBreakdown.t),
      options !! i = Some option ->
      bs !! i = Some b ->
      (length (Package.nights package)
       < length (QuoteOption.hotels option))%nat ->
      (PricingBreakdown.hotel_cost b
       == Qsum (imap (fun k hotel =>
                        stay (rooms_of pax adults) hotel
                             (nights_or_one (Package.nights package) k))
                     (QuoteOption.hotels option)))%Q /\
      charged_nights package option
      = Package.nights package
        ++ replicate (length (QuoteOption.hotels option)
                      - length (Package.nights package)) 1.
Proof.
  intros Htotal Hadults.
  destruct (pricing_ok package options pax agent total adults
                       Htotal Hadults) as (bs & Hbs & Hrel).
  exists bs. split; [exact Hbs |].
  split; [symmetry; exact (Forall2_length _ _ _ Hrel) |].
  intros i option b Hoption Hb Hlong.
  pose proof (Forall2_lookup_lr _ _ _ _ _ _ Hrel Hoption Hb) as Hprice.
  destruct (price_option_ok package pax agent option total adults
                            Htotal Hadults) as (b' & Hb' & Hcost & _).
  rewrite Hprice in Hb'. injection Hb' as <-.
  split.
  - rewrite Hcost, hotel_loop_sum.
    rewrite (imap_ext _ (fun k hotel =>
                           stay (rooms_of pax adults) hotel
                                (nights_or_one (Package.nights package) k)));
      [reflexivity |].
    intros k hotel _. cbn. rewrite leg_nights_or_one. reflexivity.
  - rewrite charged_nights_imap. unfold leg_nights.
    apply imap_nights_long. lia.
Qed.

Lemma hotels_longer_cost_witness :
  e2e_pax !! "total" = Some 2 /\
  e2e_pax !! "adults" = Some 2 /\
  exists bs,
    calculate_quote_pricing e2e_package [three_hotel_option] e2e_pax bronze
    = Ok bs /\
    length bs = length [three_hotel_option] /\
    forall (i : nat) (option : QuoteOption.t) (b : PricingBreakdown.t),
      [three_hotel_option] !! i = Some option ->
      bs !! i = Some b ->
      (length (Package.nights e2e_package)
       < length (QuoteOption.hotels option))%nat ->
      (PricingBreakdown.hotel_cost b
       == Qsum (imap (fun k hotel =>
                        stay (rooms_of e2e_pax 2) hotel
                             (nights_or_one (Package.nights e2e_package) k))
                     (QuoteOption.hotels option)))%Q /\
      charged_nights e2e_package option
      = Package.nights e2e_package
        ++ replicate (length (QuoteOption.hotels option)
                      - length (Package.nights e2e_package)) 1.
Proof.
  split; [reflexivity |]. split; [reflexivity |].
  apply (hotels_longer_cost e2e_package [three_hotel_option] e2e_pax bronze
                            2 2); reflexivity.
Defined.

End QuotesFacts.

(** ** Facts about routers/seasonal_rates.py *)

Module SeasonalRatesFacts.

Import SeasonalRates Spec Scenario.

(** *** Queries *)





(** *** Price resolution *)

(** A non-zero fixed price of the first applicable rate is the final
    price. *)
Lemma fixed_price_overrides_nonzero (package_id : string) (travel_date : Z)
    (db : DB.t) (package : Package.t) (r : SeasonalRate.t) (fixed : Q) :
  query_package db package_id = Some package ->
  find (applicable_filter package_id travel_date) (DB.seasonal_rates db)
  = Some r ->
  SeasonalRate.fixed_price r = Some fixed ->
  ~ (fixed == 0)%Q ->
  exists resp,
    calculate_seasonal_price package_id travel_date db = Ok resp /\
    PriceResponse.final_price resp = fixed.
Proof.
  intros Hpackage Hrate Hfixed Hnz. unfold calculate_seasonal_price.
  rewrite Hpackage, Hrate, Hfixed. unfold truthy.
  destruct (Qeq_bool fixed 0) eqn:Hz; cbn [negb].
  - apply Qeq_bool_iff in Hz. contradiction.
  - eexists. split; reflexivity.
Qed.

(** Without an applicable rate the final price is the base price and the
    response carries no rate. *)
Lemma no_rate_base_price (package_id : string) (travel_date : Z)
    (db : DB.t) (package : Package.t) :
  query_package db package_id = Some package ->
  find (applicable_filter package_id travel_date) (DB.seasonal_rates db)
  = None ->
  exists resp,
    calculate_seasonal_price package_id travel_date db = Ok resp /\
    PriceResponse.final_price resp = Package.base_price package /\
    PriceResponse.seasonal_rate resp = None.
Proof.
  intros Hpackage Hrate. unfold calculate_seasonal_price.
  rewrite Hpackage, Hrate. eexists. repeat split; reflexivity.
Qed.

(** *** Specified properties *)

(** C3 at a fixed price of 0. The package has base price 1000; its one
    active rate covers days 350 to 380 with multiplier 1.5 and fixed price
    0. For day 360 the response shows that rate, fixed price 0 included,
    and yet the final price is 1000 x 1.5 = 1500, not the fixed price 0:
    the test [if seasonal_rate.fixed_price] takes 0.0 for no fixed
    price. *)
Theorem fixed_price_zero_uses_multiplier :
  exists resp,
    calculate_seasonal_price "pkg-1" 360 db_fixed_zero = Ok resp /\
    RateInfo.fixed_price <$> PriceResponse.seasonal_rate resp
    = Some (Some 0%Q) /\
    (PriceResponse.final_price resp == 1500)%Q /\
    ~ (PriceResponse.final_price resp == 0)%Q.
Proof.
  eexists. split; [vm_compute; reflexivity |].
  cbn [PriceResponse.seasonal_rate PriceResponse.final_price
       RateInfo.fixed_price fmap option_fmap option_map].
  split; [reflexivity |]. split; [reflexivity | discriminate].
Qed.

(** C7 at a package without rates. For day 288 of a package of base price
    1000 the final price is 1000, and the response carries
    ["seasonal_rate": None]: no multiplier is reported, where the specification
    and the test of the price endpoint expect a multiplier of 1.0. *)
Theorem no_rate_reports_no_multiplier :
  exists resp,
    calculate_seasonal_price "pkg-1" 288 db_no_rates = Ok resp /\
    (PriceResponse.final_price resp == 1000)%Q /\
    PriceResponse.seasonal_rate resp = None /\
    reported_multiplier resp = None /\
    reported_multiplier resp <> Some 1.0%Q.
Proof.
  eexists. split; [vm_compute; reflexivity |].
  repeat split; try reflexivity. discriminate.
Qed.





End SeasonalRatesFacts.

(** ** More facts about the pricing of routers/quotes.py *)

Module EngineFacts.

Import Quotes Spec Props Scenario Examples.

(** *** Helpers *)

Lemma for_each_app {A B} (f : A -> result B) (xs1 xs2 : list A) :
  for_each f (xs1 ++ xs2)
  = bind (for_each f xs1)
         (fun ys1 => bind (for_each f xs2) (fun ys2 => Ok (ys1 ++ ys2))).
Proof.
  induction xs1 as [|x rest IH]; cbn [for_each app bind].
  - destruct (for_each f xs2); reflexivity.
  - destruct (f x) as [y|e]; cbn [bind]; [| reflexivity].
    rewrite IH.
    destruct (for_each f rest) as [ys|e]; cbn [bind]; [| reflexivity].
    destruct (for_each f xs2); reflexivity.
Qed.

Lemma for_each_ext {A B} (f g : A -> result B) (xs : list A) :
  (forall x, f x = g x) -> for_each f xs = for_each g xs.
Proof.
  intros Hfg. induction xs as [|x rest IH]; cbn; [reflexivity |].
  rewrite Hfg, IH. reflexivity.
Qed.

Lemma price_option_fields (package : Package.t) (pax : gmap string Z)
    (agent : Agent.t) (option : QuoteOption.t) (total adults : Z) :
  pax !! "total" = Some total ->
  pax !! "adults" = Some adults ->
  exists b v,
    price_option package pax agent option = Ok b /\
    select_vehicle total = Ok v /\
    PricingBreakdown.base_price b
    = (Package.base_price package * inject_Z total)%Q /\
    PricingBreakdown.hotel_cost b
    = hotel_loop package (rooms_of pax adults) (QuoteOption.hotels option) /\
    PricingBreakdown.vehicle_cost b
    = inject_Z (Vehicle.price_per_day v * Package.duration package) /\
    PricingBreakdown.addon_cost b
    = addon_loop total (default [] (QuoteOption.add_ons option)) /\
    PricingBreakdown.tier_discount b
    = inject_Z (TIER_DISCOUNTS_get (Agent.tier agent) 0 * total) /\
    PricingBreakdown.markup b
    = (if bool_decide (QuoteOption.markup_type option = Some "percentage")
       then (PricingBreakdown.base_price b + PricingBreakdown.hotel_cost b
             + PricingBreakdown.vehicle_cost b + PricingBreakdown.addon_cost b
             - PricingBreakdown.tier_discount b)
            * (default 0 (QuoteOption.markup option) / 100)
       else default 0 (QuoteOption.markup option))%Q /\
    PricingBreakdown.final_price b
    = (PricingBreakdown.base_price b + PricingBreakdown.hotel_cost b
       + PricingBreakdown.vehicle_cost b + PricingBreakdown.addon_cost b
       - PricingBreakdown.tier_discount b + PricingBreakdown.markup b)%Q.
Proof.
  intros Htotal Hadults.
  destruct (select_vehicle total) as [v|e] eqn:Hv.
  2:{ rewrite QuotesFacts.select_vehicle_cases in Hv. discriminate. }
  unfold price_option, getitem. rewrite Htotal, Hadults. cbn [bind].
  rewrite Hv. cbn [bind].
  eexists. exists v. split; [reflexivity |]. split; [reflexivity |].
  cbn [PricingBreakdown.hotel_cost PricingBreakdown.final_price
       PricingBreakdown.base_price PricingBreakdown.vehicle_cost
       PricingBreakdown.addon_cost PricingBreakdown.tier_discount
       PricingBreakdown.markup].
  repeat split; reflexivity.
Qed.

(** With the two mandatory keys the pricing succeeds, and every breakdown
    is made of the fields computed for the option of the same index. *)
Lemma pricing_fields (package : Package.t) (options : list QuoteOption.t)
    (pax : gmap string Z) (agent : Agent.t) (total adults : Z) :
  pax !! "total" = Some total ->
  pax !! "adults" = Some adults ->
  exists bs v,
    calculate_quote_pricing package options pax agent = Ok bs /\
    select_vehicle total = Ok v /\
    Forall2
      (fun option b =>
         PricingBreakdown.base_price b
         = (Package.base_price package * inject_Z total)%Q /\
         PricingBreakdown.hotel_cost b
         = hotel_loop package (rooms_of pax adults)
                      (QuoteOption.hotels option) /\
         PricingBreakdown.vehicle_cost b
         = inject_Z (Vehicle.price_per_day v * Package.duration package) /\
         PricingBreakdown.addon_cost b
         = addon_loop total (default [] (QuoteOption.add_ons option)) /\
         PricingBreakdown.tier_discount b
         = inject_Z (TIER_DISCOUNTS_get (Agent.tier agent) 0 * total) /\
         PricingBreakdown.markup b
         = (if bool_decide (QuoteOption.markup_type option = Some "percentage")
            then (PricingBreakdown.base_price b + PricingBreakdown.hotel_cost b
                  + PricingBreakdown.vehicle_cost b
                  + PricingBreakdown.addon_cost b
                  - PricingBreakdown.tier_discount b)
                 * (default 0 (QuoteOption.markup option) / 100)
            else default 0 (QuoteOption.markup option))%Q /\
         PricingBreakdown.final_price b
         = (PricingBreakdown.base_price b + PricingBreakdown.hotel_cost b
            + PricingBreakdown.vehicle_cost b + PricingBreakdown.addon_cost b
            - PricingBreakdown.tier_discount b + PricingBreakdown.markup b)%Q)
      options bs.
Proof.
  intros Htotal Hadults.
  destruct (QuotesFacts.pricing_ok package options pax agent total adults
              Htotal Hadults) as (bs & Hbs & Hrel).
  destruct (price_option_fields package pax agent
              (QuoteOption.mk [] None None None) total adults Htotal Hadults)
    as (_ & v & _ & Hv & _).
  exists bs, v. split; [exact Hbs |]. split; [exact Hv |].
  eapply Forall2_impl; [exact Hrel |].
  intros option b Hprice.
  destruct (price_option_fields package pax agent option total adults
              Htotal Hadults) as (b' & v' & Hb' & Hv' & Hfields).
  rewrite Hprice in Hb'. injection Hb' as <-.
  rewrite Hv in Hv'. injection Hv' as <-. exact Hfields.
Qed.



(** *** Rooms and vehicles *)

(** X1. [calculate_rooms] reports [adults + child_with_bed] occupants and
    the children without bed as given; it allots at least one room, enough
    rooms for every occupant at two per room, and not one room more than
    that needs. *)
Theorem rooms_house_all_occupants (a c1 c2 : Z) :
  let rc := calculate_rooms a c1 c2 in
  RoomCalc.total_occupants rc = a + c1 /\
  RoomCalc.children_without_bed rc = c2 /\
  1 <= RoomCalc.rooms rc /\
  RoomCalc.total_occupants rc <= 2 * RoomCalc.rooms rc /\
  (1 < RoomCalc.rooms rc ->
   2 * (RoomCalc.rooms rc - 1) < RoomCalc.total_occupants rc).
Proof.
  cbn. pose proof (Z.div_mod (a + c1 + 1) 2 ltac:(lia)).
  pose proof (Z.mod_pos_bound (a + c1 + 1) 2 ltac:(lia)).
  repeat split; lia.
Qed.

(** X2. [select_vehicle] always returns a row of [VEHICLE_PRICING]. Up to
    25 passengers the vehicle seats the party; beyond 25 it is the Bus,
    whose 25 seats are fewer than the party. *)
Theorem vehicle_fits_up_to_25 (total_pax : Z) :
  exists v,
    select_vehicle total_pax = Ok v /\
    v ∈ VEHICLE_PRICING /\
    (total_pax <= 25 -> total_pax <= Vehicle.capacity v) /\
    (25 < total_pax ->
     v = Vehicle.mk "Bus" 25 85 /\ Vehicle.capacity v < total_pax).
Proof.
  rewrite QuotesFacts.select_vehicle_cases. eexists. split; [reflexivity |].
  unfold VEHICLE_PRICING.
  destruct (Z.leb_spec total_pax 6); [cbn; split; [set_solver | lia] |].
  destruct (Z.leb_spec total_pax 8); [cbn; split; [set_solver | lia] |].
  destruct (Z.leb_spec total_pax 15); [cbn; split; [set_solver | lia] |].
  cbn; split; [set_solver |]. split; [lia |].
  intros. split; [reflexivity | lia].
Qed.

(** X3. A larger party never gets a smaller or cheaper vehicle: capacity
    and daily price of the selected vehicle grow with [total_pax]. *)
Theorem vehicle_price_monotone (total_pax total_pax' : Z)
    (v v' : Vehicle.t) :
  total_pax <= total_pax' ->
  select_vehicle total_pax = Ok v ->
  select_vehicle total_pax' = Ok v' ->
  Vehicle.capacity v <= Vehicle.capacity v' /\
  Vehicle.price_per_day v <= Vehicle.price_per_day v'.
Proof.
  intros Hle. rewrite !QuotesFacts.select_vehicle_cases.
  intros Hv Hv'. injection Hv as <-. injection Hv' as <-.
  repeat (match goal with
          | |- context [?a <=? ?b] => destruct (Z.leb_spec a b); try lia
          end); cbn; lia.
Qed.

Lemma vehicle_price_monotone_witness :
  7 <= 30 /\
  select_vehicle 7 = Ok (Vehicle.mk "Innova" 8 45) /\
  select_vehicle 30 = Ok (Vehicle.mk "Bus" 25 85) /\
  Vehicle.capacity (Vehicle.mk "Innova" 8 45)
  <= Vehicle.capacity (Vehicle.mk "Bus" 25 85) /\
  Vehicle.price_per_day (Vehicle.mk "Innova" 8 45)
  <= Vehicle.price_per_day (Vehicle.mk "Bus" 25 85).
Proof.
  split; [lia |]. split; [reflexivity |]. split; [reflexivity |].
  apply (vehicle_price_monotone 7 30); [lia | reflexivity | reflexivity].
Defined.

(** *** Errors of the pricing loop *)

(** X4. Without options [calculate_quote_pricing] returns the empty list
    whatever [pax] holds. With at least one option it raises
    [KeyError("total")] when [pax] lacks ["total"], and
    [KeyError("adults")] when ["total"] is there and ["adults"] is not. *)
Theorem pricing_missing_keys (package : Package.t) (option : QuoteOption.t)
    (rest : list QuoteOption.t) (pax : gmap string Z) (agent : Agent.t) :
  calculate_quote_pricing package [] pax agent = Ok [] /\
  (pax !! "total" = None ->
   calculate_quote_pricing package (option :: rest) pax agent
   = Raise (KeyError "total")) /\
  (is_Some (pax !! "total") -> pax !! "adults" = None ->
   calculate_quote_pricing package (option :: rest) pax agent
   = Raise (KeyError "adults")).
Proof.
  split; [reflexivity |]. split.
  - intros Htotal. unfold calculate_quote_pricing. cbn [for_each].
    unfold price_option, getitem. rewrite Htotal. reflexivity.
  - intros [total Htotal] Hadults. unfold calculate_quote_pricing.
    cbn [for_each]. unfold price_option, getitem.
    rewrite Htotal, Hadults. reflexivity.
Qed.

(** X5. Options are priced one by one: the pricing of two lists of options
    put together is the pricing of the first followed by the pricing of
    the second, and the first exception met is the one raised. *)
Theorem pricing_app (package : Package.t)
    (options1 options2 : list QuoteOption.t) (pax : gmap string Z)
    (agent : Agent.t) :
  calculate_quote_pricing package (options1 ++ options2) pax agent
  = bind (calculate_quote_pricing package options1 pax agent)
      (fun bs1 =>
         bind (calculate_quote_pricing package options2 pax agent)
              (fun bs2 => Ok (bs1 ++ bs2))).
Proof. apply for_each_app. Qed.

(** X6. The pricing reads [pax] under ["total"], ["adults"] and
    ["child_with_bed"] only: two parties that agree on these three keys get
    the same answer, whatever ["child_without_bed"], ["children"] or any
    other key holds. *)
Theorem pricing_reads_three_keys (package : Package.t)
    (options : list QuoteOption.t) (pax pax' : gmap string Z)
    (agent : Agent.t) :
  pax !! "total" = pax' !! "total" ->
  pax !! "adults" = pax' !! "adults" ->
  pax !! "child_with_bed" = pax' !! "child_with_bed" ->
  calculate_quote_pricing package options pax agent
  = calculate_quote_pricing package options pax' agent.
Proof.
  intros Htotal Hadults Hbed. unfold calculate_quote_pricing.
  apply for_each_ext. intros option.
  unfold price_option, getitem, get, calculate_rooms.
  cbn [RoomCalc.rooms]. rewrite Htotal, Hadults, Hbed. reflexivity.
Qed.


Lemma pricing_reads_three_keys_witness :
  e2e_pax !! "total" = (<["child_without_bed" := 7]> e2e_pax) !! "total" /\
  e2e_pax !! "adults" = (<["child_without_bed" := 7]> e2e_pax) !! "adults" /\
  e2e_pax !! "child_with_bed"
  = (<["child_without_bed" := 7]> e2e_pax) !! "child_with_bed" /\
  calculate_quote_pricing e2e_package [e2e_option] e2e_pax bronze
  = calculate_quote_pricing e2e_package [e2e_option]
                            (<["child_without_bed" := 7]> e2e_pax) bronze.
Proof.
  split; [reflexivity |]. split; [reflexivity |]. split; [reflexivity |].
  apply pricing_reads_three_keys; reflexivity.
Defined.


(** *** The fields of a breakdown *)

Lemma tier_discount_nonneg (tier : option TierLevel) :
  0 <= TIER_DISCOUNTS_get tier 0.
Proof. destruct tier as [[]|]; cbn; lia. Qed.

Lemma tier_discount_monotone (t1 t2 : option TierLevel) :
  (tier_rank t1 <= tier_rank t2)%nat ->
  TIER_DISCOUNTS_get t1 0 <= TIER_DISCOUNTS_get t2 0.
Proof. destruct t1 as [[]|], t2 as [[]|]; cbn; lia. Qed.

Lemma vehicle_price_pos (total_pax : Z) (v : Vehicle.t) :
  select_vehicle total_pax = Ok v -> 0 < Vehicle.price_per_day v.
Proof.
  rewrite QuotesFacts.select_vehicle_cases. intros Hv. injection Hv as <-.
  repeat case_match; cbn; lia.
Qed.

Lemma leg_nights_nonneg (package : Package.t) (i : nat) :
  Forall (fun n => 0 <= n) (Package.nights package) ->
  0 <= leg_nights package i.
Proof.
  intros Hnights. unfold leg_nights.
  destruct (Package.nights package !! i) as [n|] eqn:Hn; [| lia].
  exact (proj1 (Forall_lookup _ _) Hnights i n Hn).
Qed.

Lemma fold_left_nonneg {A} (f : Q -> A -> Q) (xs : list A) (acc : Q) :
  (forall a x, x ∈ xs -> (0 <= a)%Q -> (0 <= f a x)%Q) ->
  (0 <= acc)%Q ->
  (0 <= fold_left f xs acc)%Q.
Proof.
  revert acc. induction xs as [|x rest IH]; intros acc Hstep Hacc; cbn.
  - exact Hacc.
  - apply IH.
    + intros a y Hy. apply Hstep. right. exact Hy.
    + apply Hstep; [left | exact Hacc].
Qed.

Lemma inject_Z_nonneg (z : Z) : 0 <= z -> (0 <= inject_Z z)%Q.
Proof.
  intros Hz. change 0%Q with (inject_Z 0). rewrite <- Zle_Qle. exact Hz.
Qed.



(** X8. For a party of non-negative size, a package with non-negative base
    price, duration and night counts, and options whose hotel and add-on
    prices are non-negative, the base price, hotel cost, vehicle cost,
    add-on cost and tier discount of every breakdown are non-negative. *)
Theorem costs_nonnegative (package : Package.t)
    (options : list QuoteOption.t) (pax : gmap string Z) (agent : Agent.t)
    (total adults : Z) :
  pax !! "total" = Some total ->
  pax !! "adults" = Some adults ->
  0 <= total ->
  (0 <= Package.base_price package)%Q ->
  0 <= Package.duration package ->
  Forall (fun n => 0 <= n) (Package.nights package) ->
  Forall (fun option =>
            Forall (fun hotel => (0 <= HotelOption.price_per_night hotel)%Q)
                   (QuoteOption.hotels option) /\
            Forall (fun addon => (0 <= AddOn.price addon)%Q)
                   (default [] (QuoteOption.add_ons option)))
         options ->
  exists bs,
    calculate_quote_pricing package options pax agent = Ok bs /\
    Forall (fun b =>
              (0 <= PricingBreakdown.base_price b)%Q /\
              (0 <= PricingBreakdown.hotel_cost b)%Q /\
              (0 <= PricingBreakdown.vehicle_cost b)%Q /\
              (0 <= PricingBreakdown.addon_cost b)%Q /\
              (0 <= PricingBreakdown.tier_discount b)%Q)
           bs.
Proof.
  intros Htotal Hadults Hpos Hbase Hduration Hnights Hprices.
  destruct (pricing_fields package options pax agent total adults
              Htotal Hadults) as (bs & v & Hbs & Hv & Hall).
  exists bs. split; [exact Hbs |].
  apply Forall_lookup. intros i b Hb.
  destruct (Forall2_lookup_r _ _ _ _ _ Hall Hb)
    as (option & Hoption & Hb0 & Hh & Hv0 & Ha & Ht & _).
  destruct (proj1 (Forall_lookup _ _) Hprices i option Hoption)
    as [Hhotels Haddons].
  pose proof (inject_Z_nonneg total Hpos) as Htotal0.
  assert (1 <= rooms_of pax adults) as Hrooms.
  { unfold rooms_of, calculate_rooms. cbn. lia. }
  rewrite Hb0, Hh, Hv0, Ha, Ht. repeat split.
  - apply Qmult_le_0_compat; assumption.
  - unfold hotel_loop. apply fold_left_nonneg; [| apply Qle_refl].
    intros a [k hotel] Hin Ha0. unfold hotel_step. cbn [fst snd].
    apply elem_of_zip_r in Hin.
    pose proof (proj1 (Forall_forall _ _) Hhotels hotel Hin) as Hprice.
    pose proof (inject_Z_nonneg _ (leg_nights_nonneg package k Hnights)).
    pose proof (inject_Z_nonneg (rooms_of pax adults) ltac:(lia)).
    assert (0 <= HotelOption.price_per_night hotel
                 * inject_Z (leg_nights package k))%Q
      by (apply Qmult_le_0_compat; assumption).
    assert (0 <= HotelOption.price_per_night hotel
                 * inject_Z (leg_nights package k)
                 * inject_Z (rooms_of pax adults))%Q
      by (apply Qmult_le_0_compat; assumption).
    lra.
  - apply inject_Z_nonneg. pose proof (vehicle_price_pos total v Hv). nia.
  - unfold addon_loop. apply fold_left_nonneg; [| apply Qle_refl].
    intros a addon Hin Ha0.
    pose proof (proj1 (Forall_forall _ _) Haddons addon Hin) as Hprice.
    assert (0 <= AddOn.price addon * inject_Z total)%Q
      by (apply Qmult_le_0_compat; assumption).
    lra.
  - apply inject_Z_nonneg. pose proof (tier_discount_nonneg (Agent.tier agent)).
    nia.
Qed.

Lemma costs_nonnegative_witness :
  e2e_pax !! "total" = Some 2 /\
  e2e_pax !! "adults" = Some 2 /\
  0 <= 2 /\
  (0 <= Package.base_price e2e_package)%Q /\
  0 <= Package.duration e2e_package /\
  Forall (fun n => 0 <= n) (Package.nights e2e_package) /\
  Forall (fun option =>
            Forall (fun hotel => (0 <= HotelOption.price_per_night hotel)%Q)
                   (QuoteOption.hotels option) /\
            Forall (fun addon => (0 <= AddOn.price addon)%Q)
                   (default [] (QuoteOption.add_ons option)))
         [addon_option] /\
  exists bs,
    calculate_quote_pricing e2e_package [addon_option] e2e_pax bronze = Ok bs /\
    Forall (fun b =>
              (0 <= PricingBreakdown.base_price b)%Q /\
              (0 <= PricingBreakdown.hotel_cost b)%Q /\
              (0 <= PricingBreakdown.vehicle_cost b)%Q /\
              (0 <= PricingBreakdown.addon_cost b)%Q /\
              (0 <= PricingBreakdown.tier_discount b)%Q)
           bs.
Proof.
  assert (Forall (fun n => 0 <= n) (Package.nights e2e_package)) as Hnights
    by (repeat constructor; lia).
  assert (Forall (fun option =>
            Forall (fun hotel => (0 <= HotelOption.price_per_night hotel)%Q)
                   (QuoteOption.hotels option) /\
            Forall (fun addon => (0 <= AddOn.price addon)%Q)
                   (default [] (QuoteOption.add_ons option)))
         [addon_option]) as Hprices
    by (repeat constructor; discriminate).
  split; [reflexivity |]. split; [reflexivity |]. split; [lia |].
  split; [discriminate |]. split; [cbn; lia |].
  split; [exact Hnights |]. split; [exact Hprices |].
  apply (costs_nonnegative e2e_package [addon_option] e2e_pax bronze 2 2);
    [reflexivity | reflexivity | lia | discriminate | cbn; lia
     | exact Hnights | exact Hprices].
Defined.


(** X9. When an option has exactly one hotel entry per leg, the hotel cost
    is the sum over the legs of price per night times nights times rooms,
    and the night counts charged are those of the package. *)
Theorem hotels_match_legs_cost (package : Package.t)
    (options : list QuoteOption.t) (pax : gmap string Z) (agent : Agent.t)
    (total adults : Z) :
  pax !! "total" = Some total ->
  pax !! "adults" = Some adults ->
  exists bs,
    calculate_quote_pricing package options pax agent = Ok bs /\
    forall (i : nat) (option : QuoteOption.t) (b : PricingBreakdown.t),
      options !! i = Some option ->
      bs !! i = Some b ->
      length (QuoteOption.hotels option) = length (Package.nights package) ->
      (PricingBreakdown.hotel_cost b
       == Qsum (zip_with (stay (rooms_of pax adults))
                         (QuoteOption.hotels option)
                         (Package.nights package)))%Q /\
      charged_nights package option = Package.nights package.
Proof.
  intros Htotal Hadults.
  destruct (pricing_fields package options pax agent total adults
              Htotal Hadults) as (bs & v & Hbs & _ & Hall).
  exists bs. split; [exact Hbs |].
  intros i option b Hoption Hb Hlen.
  destruct (Forall2_lookup_lr _ _ _ _ _ _ Hall Hoption Hb)
    as (_ & Hcost & _).
  split.
  - rewrite Hcost, QuotesFacts.hotel_loop_sum. unfold leg_nights.
    rewrite (QuotesFacts.imap_nights_short (stay (rooms_of pax adults)))
      by lia.
    reflexivity.
  - rewrite QuotesFacts.charged_nights_imap. unfold leg_nights.
    rewrite QuotesFacts.imap_nights_long by lia.
    rewrite Hlen, Nat.sub_diag. cbn. apply app_nil_r.
Qed.

Lemma hotels_match_legs_cost_witness :
  e2e_pax !! "total" = Some 2 /\
  e2e_pax !! "adults" = Some 2 /\
  exists bs,
    calculate_quote_pricing e2e_package [e2e_option] e2e_pax bronze = Ok bs /\
    forall (i : nat) (option : QuoteOption.t) (b : PricingBreakdown.t),
      [e2e_option] !! i = Some option ->
      bs !! i = Some b ->
      length (QuoteOption.hotels option)
      = length (Package.nights e2e_package) ->
      (PricingBreakdown.hotel_cost b
       == Qsum (zip_with (stay (rooms_of e2e_pax 2))
                         (QuoteOption.hotels option)
                         (Package.nights e2e_package)))%Q /\
      charged_nights e2e_package option = Package.nights e2e_package.
Proof.
  split; [reflexivity |]. split; [reflexivity |].
  apply (hotels_match_legs_cost e2e_package [e2e_option] e2e_pax bronze 2 2);
    reflexivity.
Defined.





(** X12. For the same package, options and party, an agent of a higher tier
    (none, Bronze, Silver, Gold, Platinum in ascending order) gets a tier
    discount at least as large and a final price at most as large, provided
    the party size is non-negative and no percentage markup is below
    -100. *)
Theorem better_tier_never_pays_more (package : Package.t)
    (options : list QuoteOption.t) (pax : gmap string Z)
    (agent1 agent2 : Agent.t) (total adults : Z) :
  pax !! "total" = Some total ->
  pax !! "adults" = Some adults ->
  0 <= total ->
  (tier_rank (Agent.tier agent1) <= tier_rank (Agent.tier agent2))%nat ->
  Forall (fun option =>
            QuoteOption.markup_type option = Some "percentage" ->
            (-100 <= default 0 (QuoteOption.markup option))%Q)
         options ->
  exists bs1 bs2,
    calculate_quote_pricing package options pax agent1 = Ok bs1 /\
    calculate_quote_pricing package options pax agent2 = Ok bs2 /\
    Forall2 (fun b1 b2 =>
               (PricingBreakdown.tier_discount b1
                <= PricingBreakdown.tier_discount b2)%Q /\
               (PricingBreakdown.final_price b2
                <= PricingBreakdown.final_price b1)%Q)
            bs1 bs2.
Proof.
  intros Htotal Hadults Hpos Hrank Hmarkups.
  destruct (pricing_fields package options pax agent1 total adults
              Htotal Hadults) as (bs1 & v1 & Hbs1 & Hv1 & Hall1).
  destruct (pricing_fields package options pax agent2 total adults
              Htotal Hadults) as (bs2 & v2 & Hbs2 & Hv2 & Hall2).
  rewrite Hv1 in Hv2. injection Hv2 as <-.
  exists bs1, bs2. split; [exact Hbs1 |]. split; [exact Hbs2 |].
  apply Forall2_same_length_lookup_2.
  { rewrite <- (Forall2_length _ _ _ Hall1).
    exact (Forall2_length _ _ _ Hall2). }
  intros i b1 b2 Hb1 Hb2.
  destruct (Forall2_lookup_r _ _ _ _ _ Hall1 Hb1)
    as (option & Hoption & Hbase1 & Hh1 & Hveh1 & Ha1 & Ht1 & Hm1 & Hf1).
  destruct (Forall2_lookup_lr _ _ _ _ _ _ Hall2 Hoption Hb2)
    as (Hbase2 & Hh2 & Hveh2 & Ha2 & Ht2 & Hm2 & Hf2).
  pose proof (proj1 (Forall_lookup _ _) Hmarkups i option Hoption) as Hpct.
  assert (PricingBreakdown.tier_discount b1
          <= PricingBreakdown.tier_discount b2)%Q as Hdiscount.
  { rewrite Ht1, Ht2, <- Zle_Qle.
    apply Z.mul_le_mono_nonneg_r; [exact Hpos |].
    apply tier_discount_monotone. exact Hrank. }
  split; [exact Hdiscount |].
  rewrite Hf1, Hf2, Hm1, Hm2, Hbase1, Hbase2, Hh1, Hh2, Hveh1, Hveh2, Ha1, Ha2.
  destruct (bool_decide (QuoteOption.markup_type option = Some "percentage"))
    eqn:Hkind.
  - apply bool_decide_eq_true in Hkind. specialize (Hpct Hkind).
    set (k := (default 0 (QuoteOption.markup option) / 100)%Q).
    assert (-1 <= k)%Q as Hk.
    { subst k. apply Qle_shift_div_l; [reflexivity | lra]. }
    clearbody k. nra.
  - lra.
Qed.

Lemma better_tier_never_pays_more_witness :
  e2e_pax !! "total" = Some 2 /\
  e2e_pax !! "adults" = Some 2 /\
  0 <= 2 /\
  (tier_rank (Agent.tier bronze) <= tier_rank (Agent.tier platinum))%nat /\
  Forall (fun option =>
            QuoteOption.markup_type option = Some "percentage" ->
            (-100 <= default 0 (QuoteOption.markup option))%Q)
         [e2e_option; addon_option] /\
  exists bs1 bs2,
    calculate_quote_pricing e2e_package [e2e_option; addon_option] e2e_pax
                            bronze = Ok bs1 /\
    calculate_quote_pricing e2e_package [e2e_option; addon_option] e2e_pax
                            platinum = Ok bs2 /\
    Forall2 (fun b1 b2 =>
               (PricingBreakdown.tier_discount b1
                <= PricingBreakdown.tier_discount b2)%Q /\
               (PricingBreakdown.final_price b2
                <= PricingBreakdown.final_price b1)%Q)
            bs1 bs2.
Proof.
  assert (Forall (fun option =>
            QuoteOption.markup_type option = Some "percentage" ->
            (-100 <= default 0 (QuoteOption.markup option))%Q)
         [e2e_option; addon_option]) as Hmarkups
    by (repeat constructor; discriminate).
  split; [reflexivity |]. split; [reflexivity |]. split; [lia |].
  split; [cbn; lia |]. split; [exact Hmarkups |].
  apply (better_tier_never_pays_more e2e_package [e2e_option; addon_option]
                                     e2e_pax bronze platinum 2 2);
    [reflexivity | reflexivity | lia | cbn; lia | exact Hmarkups].
Defined.

End EngineFacts.

(** ** More facts about routers/seasonal_rates.py *)

Module RateFacts.

Import SeasonalRates SeasonalRatesCrud Spec Props Scenario Examples.

(** *** Rows and queries *)

Lemma query_rate_id (db : DB.t) (seasonal_rate_id : string)
    (r : SeasonalRate.t) :
  query_rate db seasonal_rate_id = Some r ->
  SeasonalRate.id r = seasonal_rate_id.
Proof.
  unfold query_rate. intros Hfind. apply find_some in Hfind as [_ Hid].
  apply bool_decide_eq_true in Hid. exact Hid.
Qed.

Lemma find_app {A} (f : A -> bool) (xs ys : list A) :
  find f (xs ++ ys)
  = match find f xs with Some x => Some x | None => find f ys end.
Proof.
  induction xs as [|x rest IH]; cbn; [reflexivity |].
  destruct (f x); [reflexivity | exact IH].
Qed.

Lemma find_head_filter {A} (f : A -> bool) (xs : list A) :
  find f xs = head (List.filter f xs).
Proof.
  induction xs as [|x rest IH]; cbn; [reflexivity |].
  destruct (f x); [reflexivity | exact IH].
Qed.

Lemma find_id_write_same (seasonal_rate_id : string) (r r' : SeasonalRate.t)
    (rows : list SeasonalRate.t) :
  find (fun x => bool_decide (SeasonalRate.id x = seasonal_rate_id)) rows
  = Some r ->
  SeasonalRate.id r' = seasonal_rate_id ->
  find (fun x => bool_decide (SeasonalRate.id x = seasonal_rate_id))
       (write_rate seasonal_rate_id r' rows)
  = Some r'.
Proof.
  intros Hfind Hid. induction rows as [|x rest IH]; cbn in *; [discriminate |].
  destruct (bool_decide (SeasonalRate.id x = seasonal_rate_id)) eqn:Hx; cbn.
  - rewrite bool_decide_true by exact Hid. reflexivity.
  - rewrite Hx. apply IH. exact Hfind.
Qed.

Lemma find_id_write_other (seasonal_rate_id other : string)
    (r' : SeasonalRate.t) (rows : list SeasonalRate.t) :
  other <> seasonal_rate_id ->
  SeasonalRate.id r' = seasonal_rate_id ->
  find (fun x => bool_decide (SeasonalRate.id x = other))
       (write_rate seasonal_rate_id r' rows)
  = find (fun x => bool_decide (SeasonalRate.id x = other)) rows.
Proof.
  intros Hne Hid. induction rows as [|x rest IH]; cbn; [reflexivity |].
  destruct (bool_decide (SeasonalRate.id x = seasonal_rate_id)) eqn:Hx; cbn.
  - apply bool_decide_eq_true in Hx.
    rewrite !bool_decide_false by congruence. reflexivity.
  - destruct (bool_decide (SeasonalRate.id x = other));
      [reflexivity | exact IH].
Qed.

Lemma write_rate_length (seasonal_rate_id : string) (r' : SeasonalRate.t)
    (rows : list SeasonalRate.t) :
  length (write_rate seasonal_rate_id r' rows) = length rows.
Proof.
  induction rows as [|x rest IH]; cbn; [reflexivity |].
  destruct (bool_decide (SeasonalRate.id x = seasonal_rate_id)); cbn;
    congruence.
Qed.

Lemma write_rate_twice (seasonal_rate_id : string) (r' : SeasonalRate.t)
    (rows : list SeasonalRate.t) :
  SeasonalRate.id r' = seasonal_rate_id ->
  write_rate seasonal_rate_id r' (write_rate seasonal_rate_id r' rows)
  = write_rate seasonal_rate_id r' rows.
Proof.
  intros Hid. induction rows as [|x rest IH]; cbn; [reflexivity |].
  destruct (bool_decide (SeasonalRate.id x = seasonal_rate_id)) eqn:Hx; cbn.
  - rewrite bool_decide_true by exact Hid. reflexivity.
  - rewrite Hx, IH. reflexivity.
Qed.

Lemma write_rate_map {B} (g : SeasonalRate.t -> B) (seasonal_rate_id : string)
    (r r' : SeasonalRate.t) (rows : list SeasonalRate.t) :
  find (fun x => bool_decide (SeasonalRate.id x = seasonal_rate_id)) rows
  = Some r ->
  g r' = g r ->
  map g (write_rate seasonal_rate_id r' rows) = map g rows.
Proof.
  intros Hfind Hg. induction rows as [|x rest IH]; cbn in *; [reflexivity |].
  destruct (bool_decide (SeasonalRate.id x = seasonal_rate_id)); cbn.
  - injection Hfind as ->. rewrite Hg. reflexivity.
  - rewrite IH by exact Hfind. reflexivity.
Qed.

Lemma write_rate_Forall (P : SeasonalRate.t -> Prop) (seasonal_rate_id : string)
    (r' : SeasonalRate.t) (rows : list SeasonalRate.t) :
  Forall P rows -> P r' -> Forall P (write_rate seasonal_rate_id r' rows).
Proof.
  intros Hrows Hr'. induction Hrows as [|x rest Hx Hrest IH]; cbn.
  - constructor.
  - destruct (bool_decide (SeasonalRate.id x = seasonal_rate_id));
      constructor; assumption.
Qed.

(** A row that fails a filter can as well be absent for [find]. *)
Lemma find_write_drop (f : SeasonalRate.t -> bool) (seasonal_rate_id : string)
    (r' : SeasonalRate.t) (rows : list SeasonalRate.t) :
  f r' = false ->
  find f (write_rate seasonal_rate_id r' rows)
  = find f (drop_rate seasonal_rate_id rows).
Proof.
  intros Hr'. induction rows as [|x rest IH]; cbn; [reflexivity |].
  destruct (bool_decide (SeasonalRate.id x = seasonal_rate_id)); cbn.
  - rewrite Hr'. reflexivity.
  - destruct (f x); [reflexivity | exact IH].
Qed.

Lemma drop_rate_absent (seasonal_rate_id : string)
    (rows : list SeasonalRate.t) :
  find (fun x => bool_decide (SeasonalRate.id x = seasonal_rate_id)) rows
  = None ->
  drop_rate seasonal_rate_id rows = rows.
Proof.
  induction rows as [|x rest IH]; cbn; [reflexivity |].
  destruct (bool_decide (SeasonalRate.id x = seasonal_rate_id));
    [discriminate |].
  intros Hfind. rewrite IH by exact Hfind. reflexivity.
Qed.

Lemma applicable_deactivated (package_id : string) (travel_date : Z)
    (r : SeasonalRate.t) :
  applicable_filter package_id travel_date (deactivate r) = false.
Proof.
  unfold applicable_filter, deactivate. cbn.
  rewrite andb_false_r. reflexivity.
Qed.

Lemma overlap_deactivated (package_id : string) (start_date end_date : Z)
    (r : SeasonalRate.t) :
  overlap_filter package_id start_date end_date (deactivate r) = false.
Proof.
  unfold overlap_filter, deactivate. cbn.
  rewrite andb_false_r. reflexivity.
Qed.

(** A rate applicable on a date of a range overlaps the range. *)
Lemma applicable_overlaps (package_id : string) (start_date end_date d : Z)
    (r : SeasonalRate.t) :
  start_date <= d <= end_date ->
  applicable_filter package_id d r = true ->
  overlap_filter package_id start_date end_date r = true.
Proof.
  unfold applicable_filter, overlap_filter. intros Hd Happ.
  apply andb_prop in Happ as [Happ Hend].
  apply andb_prop in Happ as [Happ Hstart].
  rewrite Happ. cbn.
  apply Z.leb_le in Hstart. apply Z.geb_le in Hend.
  apply andb_true_intro. split; [apply Z.leb_le | apply Z.geb_le]; lia.
Qed.


(** *** Soft deletion *)

(** X13. [delete_seasonal_rate] answers 404 and changes nothing when the
    rate is unknown. Otherwise it keeps the row: the table has as many rows,
    [get_seasonal_rate] still finds the rate, now inactive and otherwise
    unchanged, the other rates read as before, and deleting once more
    changes nothing. *)
Theorem delete_is_soft (seasonal_rate_id : string) (db : DB.t) :
  (query_rate db seasonal_rate_id = None ->
   exists detail,
     delete_seasonal_rate seasonal_rate_id db
     = (Raise (HTTPException 404 detail), db)) /\
  (forall r : SeasonalRate.t,
      query_rate db seasonal_rate_id = Some r ->
      exists msg db',
        delete_seasonal_rate seasonal_rate_id db = (Ok msg, db') /\
        DB.packages db' = DB.packages db /\
        length (DB.seasonal_rates db') = length (DB.seasonal_rates db) /\
        get_seasonal_rate seasonal_rate_id db' = Ok (deactivate r) /\
        (forall other : string,
            other <> seasonal_rate_id ->
            get_seasonal_rate other db' = get_seasonal_rate other db) /\
        snd (delete_seasonal_rate seasonal_rate_id db') = db').
Proof.
  split.
  - intros Hnone. unfold delete_seasonal_rate. rewrite Hnone.
    eexists. reflexivity.
  - intros r Hr. pose proof (query_rate_id db seasonal_rate_id r Hr) as Hid.
    unfold delete_seasonal_rate at 1. rewrite Hr.
    do 2 eexists. split; [reflexivity |]. split; [reflexivity |].
    split; [apply write_rate_length |].
    assert (query_rate
              {| DB.packages := DB.packages db;
                 DB.seasonal_rates :=
                   write_rate seasonal_rate_id (deactivate r)
                              (DB.seasonal_rates db) |} seasonal_rate_id
            = Some (deactivate r)) as Hafter.
    { unfold query_rate. cbn [DB.seasonal_rates].
      apply (find_id_write_same seasonal_rate_id r); [exact Hr | exact Hid]. }
    split; [unfold get_seasonal_rate; rewrite Hafter; reflexivity |].
    split.
    + intros other Hother. unfold get_seasonal_rate, query_rate.
      cbn [DB.seasonal_rates].
      rewrite find_id_write_other by assumption. reflexivity.
    + unfold delete_seasonal_rate. rewrite Hafter.
      cbn [snd DB.packages DB.seasonal_rates]. f_equal.
      change (deactivate (deactivate r)) with (deactivate r).
      apply write_rate_twice. exact Hid.
Qed.

(** X14. After [delete_seasonal_rate], price resolution and the overlap
    check of [create_seasonal_rate] answer as if the row had been removed
    from the table: a soft-deleted rate neither sets a price nor blocks a
    new rate. *)
Theorem deleted_rate_counts_as_removed (seasonal_rate_id : string)
    (db : DB.t) :
  let deleted := snd (delete_seasonal_rate seasonal_rate_id db) in
  let removed :=
    DB.mk (DB.packages db)
          (drop_rate seasonal_rate_id (DB.seasonal_rates db)) in
  (forall (package_id : string) (travel_date : Z),
      calculate_seasonal_price package_id travel_date deleted
      = calculate_seasonal_price package_id travel_date removed) /\
  (forall (c : SeasonalRateCreate.t) (uuid : string),
      fst (create_seasonal_rate c uuid deleted)
      = fst (create_seasonal_rate c uuid removed)).
Proof.
  intros deleted removed. subst deleted removed.
  unfold delete_seasonal_rate.
  destruct (query_rate db seasonal_rate_id) as [r|] eqn:Hr; cbn [snd].
  - split.
    + intros package_id travel_date.
      unfold calculate_seasonal_price, query_package.
      cbn [DB.packages DB.seasonal_rates].
      rewrite (find_write_drop _ _ _ _ (applicable_deactivated _ _ r)).
      reflexivity.
    + intros c uuid. unfold create_seasonal_rate, query_package.
      cbn [DB.packages DB.seasonal_rates].
      rewrite (find_write_drop _ _ _ _ (overlap_deactivated _ _ _ r)).
      repeat case_match; reflexivity.
  - rewrite (drop_rate_absent _ _ Hr). destruct db. split; reflexivity.
Qed.

(** *** Creation, then reads *)

(** X15. A rate created under an id no row had before is returned by
    [get_seasonal_rate] under that id exactly as [create_seasonal_rate]
    returned it, and the rates of other ids read as before. *)
Theorem created_rate_is_retrievable (c : SeasonalRateCreate.t)
    (uuid : string) (db db' : DB.t) (r : SeasonalRate.t) :
  create_seasonal_rate c uuid db = (Ok r, db') ->
  query_rate db uuid = None ->
  r = new_rate uuid c /\
  get_seasonal_rate uuid db' = Ok r /\
  (forall other : string,
      other <> uuid ->
      get_seasonal_rate other db' = get_seasonal_rate other db).
Proof.
  unfold create_seasonal_rate. intros Hcreate Hfresh.
  destruct (query_package db (SeasonalRateCreate.package_id c));
    [| discriminate].
  destruct (_ >=? _); [discriminate |].
  destruct (find _ (DB.seasonal_rates db)); [discriminate |].
  injection Hcreate as <- <-.
  split; [reflexivity |]. unfold get_seasonal_rate, query_rate in *.
  cbn [add_rate DB.seasonal_rates]. split.
  - rewrite find_app, Hfresh. cbn. rewrite bool_decide_true by reflexivity.
    reflexivity.
  - intros other Hother. rewrite find_app. cbn.
    rewrite bool_decide_false by congruence.
    destruct (find (fun x => bool_decide (SeasonalRate.id x = other))
                   (DB.seasonal_rates db)); reflexivity.
Qed.

Lemma created_rate_is_retrievable_witness :
  create_seasonal_rate (request 20 30) "r2" db_one_rate
  = (Ok (rate "r2" 20 30 1.5%Q None),
     DB.mk [sample_package]
           [rate "r1" 1 10 1.5%Q None; rate "r2" 20 30 1.5%Q None]) /\
  query_rate db_one_rate "r2" = None /\
  rate "r2" 20 30 1.5%Q None = new_rate "r2" (request 20 30) /\
  get_seasonal_rate "r2"
    (DB.mk [sample_package]
           [rate "r1" 1 10 1.5%Q None; rate "r2" 20 30 1.5%Q None])
  = Ok (rate "r2" 20 30 1.5%Q None) /\
  (forall other : string,
      other <> "r2" ->
      get_seasonal_rate other
        (DB.mk [sample_package]
               [rate "r1" 1 10 1.5%Q None; rate "r2" 20 30 1.5%Q None])
      = get_seasonal_rate other db_one_rate).
Proof.
  split; [reflexivity |]. split; [reflexivity |].
  apply (created_rate_is_retrievable (request 20 30) "r2" db_one_rate);
    reflexivity.
Defined.

(** X16. Right after a successful [create_seasonal_rate] of an active rate,
    the price of its package on every date of its range is set by the new
    rate: its fixed price when it has a non-zero one, else base price times
    its multiplier. *)
Theorem created_rate_is_priced (c : SeasonalRateCreate.t) (uuid : string)
    (db db' : DB.t) (r : SeasonalRate.t) (d : Z) :
  create_seasonal_rate c uuid db = (Ok r, db') ->
  SeasonalRateCreate.is_active c = true ->
  SeasonalRateCreate.start_date c <= d <= SeasonalRateCreate.end_date c ->
  exists package resp,
    query_package db (SeasonalRateCreate.package_id c) = Some package /\
    calculate_seasonal_price (SeasonalRateCreate.package_id c) d db'
    = Ok resp /\
    RateInfo.id <$> PriceResponse.seasonal_rate resp = Some uuid /\
    PriceResponse.final_price resp
    = match SeasonalRateCreate.fixed_price c with
      | Some fixed_price =>
          if truthy fixed_price then fixed_price
          else (Package.base_price package
                * SeasonalRateCreate.price_multiplier c)%Q
      | None =>
          (Package.base_price package * SeasonalRateCreate.price_multiplier c)%Q
      end.
Proof.
  unfold create_seasonal_rate. intros Hcreate Hactive Hd.
  destruct (query_package db (SeasonalRateCreate.package_id c))
    as [package|] eqn:Hpackage; [| discriminate].
  destruct (_ >=? _); [discriminate |].
  destruct (find _ (DB.seasonal_rates db)) eqn:Hfind; [discriminate |].
  injection Hcreate as <- <-.
  exists package. unfold calculate_seasonal_price, query_package in *.
  cbn [add_rate DB.packages DB.seasonal_rates]. rewrite Hpackage.
  assert (find (applicable_filter (SeasonalRateCreate.package_id c) d)
               (DB.seasonal_rates db) = None) as Hnone.
  { destruct (find (applicable_filter _ d) (DB.seasonal_rates db))
      as [e|] eqn:He; [| reflexivity].
    apply find_some in He as [Hin He].
    pose proof (find_none _ _ Hfind e Hin) as Hno.
    rewrite (applicable_overlaps _ _ _ d e Hd He) in Hno. discriminate. }
  rewrite find_app, Hnone. cbn [find].
  assert (applicable_filter (SeasonalRateCreate.package_id c) d
                            (new_rate uuid c) = true) as Hnew.
  { unfold applicable_filter, new_rate. cbn.
    rewrite bool_decide_true by reflexivity. rewrite Hactive. cbn.
    apply andb_true_intro. split; [apply Z.leb_le | apply Z.geb_le]; lia. }
  rewrite Hnew. eexists. split; [reflexivity |]. split; [reflexivity |].
  split; reflexivity.
Qed.

Lemma created_rate_is_priced_witness :
  create_seasonal_rate (request 20 30) "r2" db_one_rate
  = (Ok (rate "r2" 20 30 1.5%Q None),
     DB.mk [sample_package]
           [rate "r1" 1 10 1.5%Q None; rate "r2" 20 30 1.5%Q None]) /\
  SeasonalRateCreate.is_active (request 20 30) = true /\
  SeasonalRateCreate.start_date (request 20 30) <= 25
  <= SeasonalRateCreate.end_date (request 20 30) /\
  exists package resp,
    query_package db_one_rate (SeasonalRateCreate.package_id (request 20 30))
    = Some package /\
    calculate_seasonal_price
      (SeasonalRateCreate.package_id (request 20 30)) 25
      (DB.mk [sample_package]
             [rate "r1" 1 10 1.5%Q None; rate "r2" 20 30 1.5%Q None])
    = Ok resp /\
    RateInfo.id <$> PriceResponse.seasonal_rate resp = Some "r2" /\
    PriceResponse.final_price resp
    = match SeasonalRateCreate.fixed_price (request 20 30) with
      | Some fixed_price =>
          if truthy fixed_price then fixed_price
          else (Package.base_price package
                * SeasonalRateCreate.price_multiplier (request 20 30))%Q
      | None =>
          (Package.base_price package
           * SeasonalRateCreate.price_multiplier (request 20 30))%Q
      end.
Proof.
  split; [reflexivity |]. split; [reflexivity |]. split; [cbn; lia |].
  apply (created_rate_is_priced (request 20 30) "r2" db_one_rate _
                                (rate "r2" 20 30 1.5%Q None) 25);
    [reflexivity | reflexivity | cbn; lia].
Defined.


(** *** Resolution under the no-double-cover invariant *)

Lemma applicable_covers (package_id : string) (d : Z) (r : SeasonalRate.t) :
  applicable_filter package_id d r = true ->
  SeasonalRate.package_id r = package_id /\
  SeasonalRate.is_active r = true /\ covers r d.
Proof.
  unfold applicable_filter, covers. intros Happ.
  apply andb_prop in Happ as [Happ Hend].
  apply andb_prop in Happ as [Happ Hstart].
  apply andb_prop in Happ as [Hpkg Hactive].
  apply bool_decide_eq_true in Hpkg.
  apply Z.leb_le in Hstart. apply Z.geb_le in Hend. repeat split; auto; lia.
Qed.

Lemma double_cover_tail (x : SeasonalRate.t) (rows : list SeasonalRate.t) :
  double_cover rows -> double_cover (x :: rows).
Proof.
  intros (i & j & ri & rj & d & Hij & Hi & Hj & Hpkg & Hai & Haj & Hci & Hcj).
  exists (S i), (S j), ri, rj, d.
  split; [lia |]. split; [exact Hi |]. split; [exact Hj |]. tauto.
Qed.

Lemma at_most_one_applicable (package_id : string) (d : Z)
    (rows : list SeasonalRate.t) :
  ~ double_cover rows ->
  (length (List.filter (applicable_filter package_id d) rows) <= 1)%nat.
Proof.
  induction rows as [|x rest IH]; intros Hno; cbn; [lia |].
  assert (~ double_cover rest) as Hrest
    by (intros H; apply Hno, double_cover_tail, H).
  specialize (IH Hrest).
  destruct (applicable_filter package_id d x) eqn:Hx; [| exact IH].
  destruct (List.filter (applicable_filter package_id d) rest)
    as [|y more] eqn:Hfilter; [cbn; lia |].
  exfalso. apply Hno.
  assert (In y (List.filter (applicable_filter package_id d) rest)) as Hy
    by (rewrite Hfilter; left; reflexivity).
  apply filter_In in Hy as [Hin Hy].
  apply list_elem_of_In, list_elem_of_lookup in Hin as [k Hk].
  destruct (applicable_covers _ _ _ Hx) as (Hpx & Hax & Hcx).
  destruct (applicable_covers _ _ _ Hy) as (Hpy & Hay & Hcy).
  exists 0%nat, (S k), x, y, d. cbn. repeat split; auto; try congruence.
  all: first [apply Hcx | apply Hcy].
Qed.

Lemma filter_Permutation_bool {A} (f : A -> bool) (xs ys : list A) :
  xs ≡ₚ ys -> List.filter f xs ≡ₚ List.filter f ys.
Proof.
  induction 1 as [|x xs ys _ IH|x y xs|xs ys zs _ IH1 _ IH2]; cbn.
  - reflexivity.
  - destruct (f x); [constructor |]; exact IH.
  - destruct (f x), (f y); try reflexivity. apply perm_swap.
  - etransitivity; eassumption.
Qed.

(** X17. On a table where no date is covered by two active rates of one
    package, [calculate_seasonal_price] does not depend on the order of the
    rows: any permutation of the table gives the same response. *)
Theorem resolution_ignores_row_order (package_id : string) (travel_date : Z)
    (db : DB.t) (rows' : list SeasonalRate.t) :
  ~ double_cover (DB.seasonal_rates db) ->
  rows' ≡ₚ DB.seasonal_rates db ->
  calculate_seasonal_price package_id travel_date
    (DB.mk (DB.packages db) rows')
  = calculate_seasonal_price package_id travel_date db.
Proof.
  intros Hno Hperm. unfold calculate_seasonal_price, query_package.
  cbn [DB.packages DB.seasonal_rates].
  assert (find (applicable_filter package_id travel_date) rows'
          = find (applicable_filter package_id travel_date)
                 (DB.seasonal_rates db)) as ->; [| reflexivity].
  rewrite !find_head_filter.
  pose proof (at_most_one_applicable package_id travel_date _ Hno) as Hone.
  pose proof (filter_Permutation_bool
                (applicable_filter package_id travel_date) _ _ Hperm) as Hp.
  destruct (List.filter _ (DB.seasonal_rates db)) as [|x [|y more]].
  - apply Permutation_nil_r in Hp. rewrite Hp. reflexivity.
  - apply Permutation_singleton_r in Hp. rewrite Hp. reflexivity.
  - cbn in Hone. lia.
Qed.

Lemma two_rates_no_double_cover :
  ~ double_cover (DB.seasonal_rates db_two_rates).
Proof.
  intros (i & j & ri & rj & d & Hij & Hi & Hj & _ & _ & _ & Hci & Hcj).
  destruct i as [|[|i]], j as [|[|j]]; cbn in Hi, Hj;
    try discriminate; try lia;
    injection Hi as <-; injection Hj as <-;
    unfold covers in *; cbn in *; lia.
Qed.

Lemma resolution_ignores_row_order_witness :
  ~ double_cover (DB.seasonal_rates db_two_rates) /\
  [rate "r2" 20 30 1.2%Q None; rate "r1" 1 10 1.5%Q None]
  ≡ₚ DB.seasonal_rates db_two_rates /\
  calculate_seasonal_price "pkg-1" 25
    (DB.mk (DB.packages db_two_rates)
           [rate "r2" 20 30 1.2%Q None; rate "r1" 1 10 1.5%Q None])
  = calculate_seasonal_price "pkg-1" 25 db_two_rates.
Proof.
  split; [exact two_rates_no_double_cover |].
  split; [apply perm_swap |].
  apply (resolution_ignores_row_order "pkg-1" 25 db_two_rates);
    [exact two_rates_no_double_cover | apply perm_swap].
Defined.

(** *** Invariants of the writers *)

(** X18. If every rate of the table starts before it ends, this is still
    so after any call of [create_seasonal_rate], [update_seasonal_rate] or
    [delete_seasonal_rate], successful or not. *)
Theorem writers_keep_ranges_well_formed (db : DB.t) :
  well_formed (DB.seasonal_rates db) ->
  (forall (c : SeasonalRateCreate.t) (uuid : string),
      well_formed (DB.seasonal_rates (snd (create_seasonal_rate c uuid db)))) /\
  (forall (seasonal_rate_id : string) (u : SeasonalRateUpdate.t),
      well_formed
        (DB.seasonal_rates
           (snd (update_seasonal_rate seasonal_rate_id u db)))) /\
  (forall seasonal_rate_id : string,
      well_formed
        (DB.seasonal_rates (snd (delete_seasonal_rate seasonal_rate_id db)))).
Proof.
  intros Hwf. unfold well_formed in *. split; [| split].
  - intros c uuid. unfold create_seasonal_rate.
    destruct (query_package db (SeasonalRateCreate.package_id c));
      [| exact Hwf].
    destruct (Z.geb_spec (SeasonalRateCreate.start_date c)
                         (SeasonalRateCreate.end_date c)); [exact Hwf |].
    destruct (find _ (DB.seasonal_rates db)); [exact Hwf |].
    cbn. apply Forall_app. split; [exact Hwf |].
    constructor; [cbn; lia | constructor].
  - intros seasonal_rate_id u. unfold update_seasonal_rate.
    destruct (query_rate db seasonal_rate_id) as [r|]; [| exact Hwf].
    destruct (Z.geb_spec
                (default (SeasonalRate.start_date r)
                         (SeasonalRateUpdate.start_date u))
                (default (SeasonalRate.end_date r)
                         (SeasonalRateUpdate.end_date u))); [exact Hwf |].
    cbn. apply write_rate_Forall; [exact Hwf | cbn; lia].
  - intros seasonal_rate_id. unfold delete_seasonal_rate.
    destruct (query_rate db seasonal_rate_id) as [r|] eqn:Hr; [| exact Hwf].
    cbn. apply write_rate_Forall; [exact Hwf |].
    unfold query_rate in Hr. apply find_some in Hr as [Hin _].
    apply (proj1 (Forall_forall _ _) Hwf r). apply list_elem_of_In. exact Hin.
Qed.

Lemma writers_keep_ranges_well_formed_witness :
  well_formed (DB.seasonal_rates db_two_rates) /\
  (forall (c : SeasonalRateCreate.t) (uuid : string),
      well_formed
        (DB.seasonal_rates (snd (create_seasonal_rate c uuid db_two_rates))))
  /\
  (forall (seasonal_rate_id : string) (u : SeasonalRateUpdate.t),
      well_formed
        (DB.seasonal_rates
           (snd (update_seasonal_rate seasonal_rate_id u db_two_rates)))) /\
  (forall seasonal_rate_id : string,
      well_formed
        (DB.seasonal_rates
           (snd (delete_seasonal_rate seasonal_rate_id db_two_rates)))).
Proof.
  assert (well_formed (DB.seasonal_rates db_two_rates)) as Hwf
    by (repeat constructor).
  split; [exact Hwf |].
  apply (writers_keep_ranges_well_formed db_two_rates). exact Hwf.
Defined.

(** X19. [update_seasonal_rate] never changes the packages, the ids of the
    rows or the package a row belongs to, and leaves the rates of other ids
    as they were. When it raises, the database is unchanged; when it
    succeeds, the rate read back under the id is the one it returned. *)
Theorem update_is_local (seasonal_rate_id : string)
    (u : SeasonalRateUpdate.t) (db : DB.t) :
  let res := fst (update_seasonal_rate seasonal_rate_id u db) in
  let db' := snd (update_seasonal_rate seasonal_rate_id u db) in
  DB.packages db' = DB.packages db /\
  map SeasonalRate.id (DB.seasonal_rates db')
  = map SeasonalRate.id (DB.seasonal_rates db) /\
  map SeasonalRate.package_id (DB.seasonal_rates db')
  = map SeasonalRate.package_id (DB.seasonal_rates db) /\
  (forall other : string,
      other <> seasonal_rate_id ->
      query_rate db' other = query_rate db other) /\
  (forall e : error, res = Raise e -> db' = db) /\
  (forall r' : SeasonalRate.t,
      res = Ok r' ->
      query_rate db' seasonal_rate_id = Some r' /\
      SeasonalRate.id r' = seasonal_rate_id).
Proof.
  cbn zeta. unfold update_seasonal_rate.
  destruct (query_rate db seasonal_rate_id) as [r|] eqn:Hr.
  2:{ cbn. repeat split; try reflexivity; discriminate. }
  pose proof (query_rate_id db seasonal_rate_id r Hr) as Hid.
  destruct (_ >=? _).
  { cbn. repeat split; try reflexivity; discriminate. }
  cbn [fst snd DB.packages DB.seasonal_rates].
  split; [reflexivity |].
  split; [apply (write_rate_map _ _ r); [exact Hr | reflexivity] |].
  split; [apply (write_rate_map _ _ r); [exact Hr | reflexivity] |].
  split.
  { intros other Hother. unfold query_rate. cbn [DB.seasonal_rates].
    apply find_id_write_other; [exact Hother | exact Hid]. }
  split; [discriminate |].
  intros r' Hr'. injection Hr' as <-. split; [| exact Hid].
  unfold query_rate. cbn [DB.seasonal_rates].
  apply (find_id_write_same seasonal_rate_id r); [exact Hr | exact Hid].
Qed.


(** *** Listing *)

Lemma by_start_date_total : Total by_start_date.
Proof. intros r1 r2. unfold by_start_date. lia. Qed.

Lemma elem_of_filter_bool {A} (f : A -> bool) (xs : list A) (x : A) :
  x ∈ List.filter f xs <-> x ∈ xs /\ f x = true.
Proof. rewrite !list_elem_of_In. apply filter_In. Qed.

(** X20. [get_seasonal_rates] returns, in ascending order of start date,
    exactly the rows that pass the filters asked for: the package when a
    non-empty id is given, active rows when [active_only] is set, rows
    covering the date when one is given. An empty package id filters
    nothing. *)
Theorem rates_listing_sorted_and_filtered (package_id : option string)
    (active_only : bool) (current_date : option Z) (db : DB.t) :
  let rs := get_seasonal_rates package_id active_only current_date db in
  Sorted by_start_date rs /\
  (forall r : SeasonalRate.t,
      r ∈ rs <->
      r ∈ DB.seasonal_rates db /\ listed package_id active_only current_date r)
  /\
  (package_id = Some "" ->
   rs = get_seasonal_rates None active_only current_date db).
Proof.
  cbn zeta. split; [| split].
  - unfold get_seasonal_rates.
    apply (@Sorted_merge_sort _ by_start_date _ by_start_date_total).
  - intros r. unfold get_seasonal_rates, listed.
    rewrite merge_sort_Permutation.
    assert (forall rows,
               r ∈ match current_date with
                   | Some d =>
                       List.filter
                         (fun x => (SeasonalRate.start_date x <=? d)
                                   && (SeasonalRate.end_date x >=? d)) rows
                   | None => rows
                   end
               <-> r ∈ rows /\ (forall d, current_date = Some d -> covers r d))
      as Hdate.
    { intros rows. destruct current_date as [d|].
      - rewrite elem_of_filter_bool. unfold covers.
        rewrite andb_true_iff, Z.leb_le, Z.geb_le. split.
        + intros [Hin Hd]. split; [exact Hin |].
          intros d' Hd'. injection Hd' as <-. lia.
        + intros [Hin Hd]. split; [exact Hin |].
          specialize (Hd d eq_refl). lia.
      - split; [intros Hin; split; [exact Hin | discriminate] | tauto]. }
    assert (forall rows,
               r ∈ (if active_only
                    then List.filter SeasonalRate.is_active rows else rows)
               <-> r ∈ rows /\
                   (active_only = true -> SeasonalRate.is_active r = true))
      as Hactive.
    { intros rows. destruct active_only.
      - rewrite elem_of_filter_bool. tauto.
      - split; [intros Hin; split; [exact Hin | discriminate] | tauto]. }
    assert (r ∈ match package_id with
                | Some p =>
                    if str_truthy p
                    then List.filter
                           (fun x => bool_decide (SeasonalRate.package_id x = p))
                           (DB.seasonal_rates db)
                    else DB.seasonal_rates db
                | None => DB.seasonal_rates db
                end
            <-> r ∈ DB.seasonal_rates db /\
                (forall p, package_id = Some p -> p <> "" ->
                           SeasonalRate.package_id r = p)) as Hpackage.
    { destruct package_id as [p|].
      - destruct p as [|ch p]; cbn [str_truthy].
        + split; [intros Hin; split; [exact Hin |] | tauto].
          intros p Hp Hne. injection Hp as <-. contradiction.
        + rewrite elem_of_filter_bool, bool_decide_eq_true. split.
          * intros [Hin Hp]. split; [exact Hin |].
            intros p' Hp' _. injection Hp' as <-. exact Hp.
          * intros [Hin Hp]. split; [exact Hin |].
            apply Hp; [reflexivity | discriminate].
      - split; [intros Hin; split; [exact Hin | discriminate] | tauto]. }
    rewrite Hdate, Hactive, Hpackage. tauto.
  - intros ->. reflexivity.
Qed.

End RateFacts.

(** ** Facts about the handlers of routers/quotes.py *)

Module QuoteHandlerFacts.

Import QuoteHandlers Props Scenario Examples.

(** *** Rows and queries *)



Lemma query_quote_id (db : Store.t) (quote_id : string) (q : Quote.t) :
  query_quote db quote_id = Some q -> Quote.id q = quote_id.
Proof.
  unfold query_quote. intros Hfind. apply find_some in Hfind as [_ Hid].
  apply bool_decide_eq_true in Hid. exact Hid.
Qed.

Lemma find_snoc {A} (f : A -> bool) (xs : list A) (x : A) :
  find f (xs ++ [x])
  = match find f xs with
    | Some y => Some y
    | None => if f x then Some x else None
    end.
Proof.
  induction xs as [|y rest IH]; cbn; [reflexivity |].
  destruct (f y); [reflexivity | exact IH].
Qed.

Lemma find_quote_write_same (quote_id : string) (q q' : Quote.t)
    (rows : list Quote.t) :
  find (fun x => bool_decide (Quote.id x = quote_id)) rows = Some q ->
  Quote.id q' = quote_id ->
  find (fun x => bool_decide (Quote.id x = quote_id))
       (write_quote quote_id q' rows) = Some q'.
Proof.
  intros Hfind Hid. induction rows as [|x rest IH]; cbn in *; [discriminate |].
  destruct (bool_decide (Quote.id x = quote_id)) eqn:Hx; cbn.
  - rewrite bool_decide_true by exact Hid. reflexivity.
  - rewrite Hx. apply IH. exact Hfind.
Qed.

Lemma find_quote_write_other (quote_id other : string) (q' : Quote.t)
    (rows : list Quote.t) :
  other <> quote_id ->
  Quote.id q' = quote_id ->
  find (fun x => bool_decide (Quote.id x = other))
       (write_quote quote_id q' rows)
  = find (fun x => bool_decide (Quote.id x = other)) rows.
Proof.
  intros Hne Hid. induction rows as [|x rest IH]; cbn; [reflexivity |].
  destruct (bool_decide (Quote.id x = quote_id)) eqn:Hx; cbn.
  - apply bool_decide_eq_true in Hx.
    rewrite !bool_decide_false by congruence. reflexivity.
  - destruct (bool_decide (Quote.id x = other)); [reflexivity | exact IH].
Qed.

Lemma find_quote_remove_other (quote_id other : string)
    (rows : list Quote.t) :
  other <> quote_id ->
  find (fun x => bool_decide (Quote.id x = other)) (remove_quote quote_id rows)
  = find (fun x => bool_decide (Quote.id x = other)) rows.
Proof.
  intros Hne. induction rows as [|x rest IH]; cbn; [reflexivity |].
  destruct (bool_decide (Quote.id x = quote_id)) eqn:Hx; cbn.
  - apply bool_decide_eq_true in Hx.
    rewrite bool_decide_false by congruence. reflexivity.
  - destruct (bool_decide (Quote.id x = other)); [reflexivity | exact IH].
Qed.

Lemma find_quote_remove_same (quote_id : string) (rows : list Quote.t) :
  NoDup (map Quote.id rows) ->
  find (fun x => bool_decide (Quote.id x = quote_id))
       (remove_quote quote_id rows) = None.
Proof.
  induction rows as [|x rest IH]; cbn; [reflexivity |].
  intros Hnodup. apply NoDup_cons in Hnodup as [Hx Hrest].
  destruct (bool_decide (Quote.id x = quote_id)) eqn:Hid; cbn.
  - apply bool_decide_eq_true in Hid.
    destruct (find _ rest) as [y|] eqn:Hy; [| reflexivity].
    apply find_some in Hy as [Hin Hy]. apply bool_decide_eq_true in Hy.
    exfalso. apply Hx. rewrite Hid, <- Hy.
    apply list_elem_of_fmap_2, list_elem_of_In, Hin.
  - rewrite Hid. apply IH. exact Hrest.
Qed.

Lemma remove_quote_snoc_fresh (quote_id : string) (rows : list Quote.t)
    (q : Quote.t) :
  find (fun x => bool_decide (Quote.id x = quote_id)) rows = None ->
  Quote.id q = quote_id ->
  remove_quote quote_id (rows ++ [q]) = rows.
Proof.
  intros Hfresh Hid. induction rows as [|x rest IH]; cbn in *.
  - rewrite bool_decide_true by exact Hid. reflexivity.
  - destruct (bool_decide (Quote.id x = quote_id)); [discriminate |].
    rewrite IH by exact Hfresh. reflexivity.
Qed.

Lemma remove_quote_length (quote_id : string) (rows : list Quote.t)
    (q : Quote.t) :
  find (fun x => bool_decide (Quote.id x = quote_id)) rows = Some q ->
  S (length (remove_quote quote_id rows)) = length rows.
Proof.
  induction rows as [|x rest IH]; cbn; [discriminate |].
  destruct (bool_decide (Quote.id x = quote_id)); cbn; [reflexivity |].
  intros Hfind. rewrite IH by exact Hfind. reflexivity.
Qed.

Lemma set_quotes_same (db : Store.t) : set_quotes db (Store.quotes db) = db.
Proof. destruct db. reflexivity. Qed.

Lemma not_owner_false (agent : option AgentRow.t) (q : Quote.t) :
  not_owner agent q = false <->
  exists a, agent = Some a /\ Quote.agent_id q = Some (AgentRow.id a).
Proof.
  unfold not_owner. destruct agent as [a|].
  - rewrite negb_false_iff, bool_decide_eq_true. split.
    + intros H. exists a. auto.
    + intros (a' & Ha & H). injection Ha as ->. exact H.
  - split; [discriminate | intros (a & Ha & _); discriminate].
Qed.


Lemma owns_not_owner (db : Store.t) (user_id : string) (q : Quote.t) :
  owns db user_id q <-> not_owner (query_agent db user_id) q = false.
Proof. symmetry. apply not_owner_false. Qed.

Lemma not_owns_not_owner (db : Store.t) (user_id : string) (q : Quote.t) :
  ~ owns db user_id q -> not_owner (query_agent db user_id) q = true.
Proof.
  intros Hno. destruct (not_owner _ q) eqn:H; [reflexivity |].
  apply owns_not_owner in H. contradiction.
Qed.

(** *** Creating a quote *)





(** *** Ownership *)

(** X23. For an existing quote, [send_quote], [duplicate_quote] and
    [delete_quote] answer 403 and leave the database unchanged when the
    caller has no agent profile or the quote belongs to another agent. *)
Theorem writes_are_owner_only (quote_id user_id uuid : string)
    (utcnow db_now : Z) (db : Store.t) (q : Quote.t) :
  query_quote db quote_id = Some q ->
  ~ owns db user_id q ->
  send_quote quote_id user_id db
  = (Raises (HTTPException 403 "Access denied"), db) /\
  duplicate_quote quote_id user_id uuid utcnow db_now db
  = (Raises (HTTPException 403 "Access denied"), db) /\
  delete_quote quote_id user_id db
  = (Raises (HTTPException 403 "Access denied"), db).
Proof.
  intros Hq Hno. apply not_owns_not_owner in Hno.
  unfold send_quote, duplicate_quote, delete_quote. rewrite Hq, Hno.
  repeat split; reflexivity.
Qed.

Lemma agent_a2_not_owner_of_q1 :
  ~ owns store "u2" (quote_of "q1" "a1" QuoteStatus.DRAFT 100).
Proof.
  intros (a & Ha & Hid). vm_compute in Ha. injection Ha as <-. discriminate.
Qed.

Lemma writes_are_owner_only_witness :
  query_quote store "q1" = Some (quote_of "q1" "a1" QuoteStatus.DRAFT 100) /\
  ~ owns store "u2" (quote_of "q1" "a1" QuoteStatus.DRAFT 100) /\
  send_quote "q1" "u2" store
  = (Raises (HTTPException 403 "Access denied"), store) /\
  duplicate_quote "q1" "u2" "q4" 1000 1001 store
  = (Raises (HTTPException 403 "Access denied"), store) /\
  delete_quote "q1" "u2" store
  = (Raises (HTTPException 403 "Access denied"), store).
Proof.
  split; [reflexivity |]. split; [exact agent_a2_not_owner_of_q1 |].
  apply (writes_are_owner_only "q1" "u2" "q4" 1000 1001 store
                               (quote_of "q1" "a1" QuoteStatus.DRAFT 100));
    [reflexivity | exact agent_a2_not_owner_of_q1].
Defined.

(** X24. [get_quote] returns an existing quote to an admin, and to any other
    user only when the user's agent profile owns the quote; otherwise it
    answers 403. *)
Theorem get_quote_access (quote_id user_id : string) (db : Store.t)
    (q : Quote.t) (user : User.t) :
  query_quote db quote_id = Some q ->
  query_user db user_id = Some user ->
  (User.role user = UserRole.ADMIN -> get_quote quote_id user_id db = Returns q)
  /\
  (User.role user <> UserRole.ADMIN ->
   (owns db user_id q -> get_quote quote_id user_id db = Returns q) /\
   (~ owns db user_id q ->
    get_quote quote_id user_id db
    = Raises (HTTPException 403 "Access denied"))).
Proof.
  intros Hq Huser. unfold get_quote. rewrite Hq, Huser. split.
  - intros Hadmin. rewrite bool_decide_true by exact Hadmin. reflexivity.
  - intros Hagent. rewrite bool_decide_false by exact Hagent. cbn [negb].
    split.
    + intros Howns. apply owns_not_owner in Howns. rewrite Howns. reflexivity.
    + intros Hno. apply not_owns_not_owner in Hno. rewrite Hno. reflexivity.
Qed.

Lemma get_quote_access_witness :
  query_quote store "q1" = Some (quote_of "q1" "a1" QuoteStatus.DRAFT 100) /\
  query_user store "u3"
  = Some (User.mk "u3" UserRole.ADMIN (Some UserStatus.APPROVED)) /\
  (User.role (User.mk "u3" UserRole.ADMIN (Some UserStatus.APPROVED))
   = UserRole.ADMIN ->
   get_quote "q1" "u3" store
   = Returns (quote_of "q1" "a1" QuoteStatus.DRAFT 100)) /\
  (User.role (User.mk "u3" UserRole.ADMIN (Some UserStatus.APPROVED))
   <> UserRole.ADMIN ->
   (owns store "u3" (quote_of "q1" "a1" QuoteStatus.DRAFT 100) ->
    get_quote "q1" "u3" store
    = Returns (quote_of "q1" "a1" QuoteStatus.DRAFT 100)) /\
   (~ owns store "u3" (quote_of "q1" "a1" QuoteStatus.DRAFT 100) ->
    get_quote "q1" "u3" store
    = Raises (HTTPException 403 "Access denied"))).
Proof.
  split; [reflexivity |]. split; [reflexivity |].
  apply (get_quote_access "q1" "u3" store); reflexivity.
Defined.

(** *** Sending, duplicating, deleting *)

(** X25. The owner can send a quote whatever its status: the quote then
    reads back with status SENT and nothing else changed, the other quotes
    read as before, and [delete_quote] refuses it with 400 and leaves the
    database as it is. *)
Theorem sent_quote_cannot_be_deleted (quote_id user_id : string)
    (db : Store.t) (q : Quote.t) :
  query_quote db quote_id = Some q ->
  owns db user_id q ->
  exists msg db',
    send_quote quote_id user_id db = (Returns msg, db') /\
    query_quote db' quote_id = Some (with_status q QuoteStatus.SENT) /\
    (forall other, other <> quote_id ->
                   query_quote db' other = query_quote db other) /\
    delete_quote quote_id user_id db'
    = (Raises (HTTPException 400 "Can only delete draft quotes"), db').
Proof.
  intros Hq Howns. pose proof (query_quote_id db quote_id q Hq) as Hid.
  pose proof Howns as Hown. apply owns_not_owner in Hown.
  unfold send_quote. rewrite Hq, Hown.
  do 2 eexists. split; [reflexivity |].
  assert (query_quote
            (set_quotes db (write_quote quote_id (mark_sent q)
                                        (Store.quotes db))) quote_id
          = Some (mark_sent q)) as Hafter.
  { unfold query_quote. cbn [set_quotes Store.quotes].
    apply (find_quote_write_same quote_id q); [exact Hq | exact Hid]. }
  split; [exact Hafter |]. split.
  - intros other Hother. unfold query_quote. cbn [set_quotes Store.quotes].
    apply find_quote_write_other; [exact Hother | exact Hid].
  - unfold delete_quote. rewrite Hafter.
    change (query_agent (set_quotes db _) user_id)
      with (query_agent db user_id).
    change (not_owner (query_agent db user_id) (mark_sent q))
      with (not_owner (query_agent db user_id) q).
    rewrite Hown. reflexivity.
Qed.

Lemma agent_a1_owns_q2 :
  owns store "u1" (quote_of "q2" "a1" QuoteStatus.ACCEPTED 200).
Proof. exists (AgentRow.mk "a1" (Some "u1") bronze). split; reflexivity. Qed.

Lemma sent_quote_cannot_be_deleted_witness :
  query_quote store "q2" = Some (quote_of "q2" "a1" QuoteStatus.ACCEPTED 200)
  /\
  owns store "u1" (quote_of "q2" "a1" QuoteStatus.ACCEPTED 200) /\
  exists msg db',
    send_quote "q2" "u1" store = (Returns msg, db') /\
    query_quote db' "q2"
    = Some (with_status (quote_of "q2" "a1" QuoteStatus.ACCEPTED 200)
                        QuoteStatus.SENT) /\
    (forall other, other <> "q2" ->
                   query_quote db' other = query_quote store other) /\
    delete_quote "q2" "u1" db'
    = (Raises (HTTPException 400 "Can only delete draft quotes"), db').
Proof.
  split; [reflexivity |]. split; [exact agent_a1_owns_q2 |].
  apply (sent_quote_cannot_be_deleted "q2" "u1" store);
    [reflexivity | exact agent_a1_owns_q2].
Defined.

(** X26. [delete_quote] succeeds exactly when the quote exists, belongs to
    the caller's agent profile and is a draft. In every other case the
    database is unchanged. On success one row is gone, the other quotes
    read as before, and, ids being unique, the quote is no longer found. *)
Theorem delete_removes_own_drafts_only (quote_id user_id : string)
    (db : Store.t) :
  let res := fst (delete_quote quote_id user_id db) in
  let db' := snd (delete_quote quote_id user_id db) in
  ((exists msg, res = Returns msg) <->
   (exists q, query_quote db quote_id = Some q /\
              owns db user_id q /\ Quote.status q = QuoteStatus.DRAFT)) /\
  ((forall msg, res <> Returns msg) -> db' = db) /\
  (forall msg, res = Returns msg ->
     S (length (Store.quotes db')) = length (Store.quotes db) /\
     (forall other, other <> quote_id ->
                    query_quote db' other = query_quote db other) /\
     (NoDup (map Quote.id (Store.quotes db)) ->
      query_quote db' quote_id = None)).
Proof.
  cbn zeta. unfold delete_quote.
  destruct (query_quote db quote_id) as [q|] eqn:Hq.
  2:{ cbn. split; [| split; [reflexivity | discriminate]].
      split; [intros [msg H]; discriminate |].
      intros (q & Hq' & _). discriminate. }
  destruct (not_owner (query_agent db user_id) q) eqn:Hown.
  { cbn. split; [| split; [reflexivity | discriminate]].
    split; [intros [msg H]; discriminate |].
    intros (q' & Hq' & Howns & _). injection Hq' as <-.
    apply owns_not_owner in Howns. congruence. }
  apply owns_not_owner in Hown.
  destruct (bool_decide (Quote.status q = QuoteStatus.DRAFT)) eqn:Hdraft;
    cbn [negb].
  2:{ apply bool_decide_eq_false in Hdraft. cbn.
      split; [| split; [reflexivity | discriminate]].
      split; [intros [msg H]; discriminate |].
      intros (q' & Hq' & _ & Hd). injection Hq' as <-. contradiction. }
  apply bool_decide_eq_true in Hdraft. cbn [fst snd]. split; [| split].
  - split; [intros _; exists q; auto | intros _; eexists; reflexivity].
  - intros Hnever. exfalso. eapply Hnever. reflexivity.
  - intros msg _. cbn [set_quotes Store.quotes]. split.
    { apply (remove_quote_length quote_id _ q). exact Hq. }
    split.
    + intros other Hother. unfold query_quote. cbn [Store.quotes].
      apply find_quote_remove_other. exact Hother.
    + intros Hnodup. unfold query_quote. cbn [Store.quotes].
      apply find_quote_remove_same. exact Hnodup.
Qed.

(** X27. Duplicating an own quote under a fresh id adds one row: a draft
    named "Copy of ..." with the agent, options, party and pricing of the
    original, valid for 30 days; the original reads as before. Deleting the
    copy then succeeds and restores the database exactly. *)
Theorem duplicate_then_delete_round_trip (quote_id user_id uuid : string)
    (utcnow db_now : Z) (db : Store.t) (q : Quote.t) :
  query_quote db quote_id = Some q ->
  owns db user_id q ->
  query_quote db uuid = None ->
  exists copy db',
    duplicate_quote quote_id user_id uuid utcnow db_now db
    = (Returns copy, db') /\
    Store.quotes db' = Store.quotes db ++ [copy] /\
    Quote.id copy = uuid /\
    Quote.status copy = QuoteStatus.DRAFT /\
    Quote.client_name copy = "Copy of " +:+ Quote.client_name q /\
    Quote.agent_id copy = Quote.agent_id q /\
    Quote.options copy = Quote.options q /\
    Quote.pax copy = Quote.pax q /\
    Quote.pricing copy = Quote.pricing q /\
    Quote.valid_until copy = utcnow + 30 * 86400 /\
    query_quote db' quote_id = Some q /\
    query_quote db' uuid = Some copy /\
    delete_quote uuid user_id db'
    = (Returns "Quote deleted successfully", db).
Proof.
  intros Hq Howns Hfresh.
  pose proof Howns as Hown. apply owns_not_owner in Hown.
  unfold duplicate_quote. rewrite Hq, Hown.
  do 2 eexists. split; [reflexivity |].
  cbn [add_quote set_quotes Store.quotes Quote.id Quote.status
       Quote.client_name Quote.agent_id Quote.options Quote.pax Quote.pricing
       Quote.valid_until].
  do 9 (split; [reflexivity |]).
  assert (forall copy,
             Quote.id copy = uuid ->
             query_quote (set_quotes db (Store.quotes db ++ [copy])) uuid
             = Some copy) as Hcopy.
  { intros copy Hid. unfold query_quote in *. cbn [set_quotes Store.quotes].
    rewrite find_snoc, Hfresh, bool_decide_true by exact Hid. reflexivity. }
  unfold add_quote. split.
  { unfold query_quote in *. cbn [set_quotes Store.quotes].
    rewrite find_snoc, Hq. reflexivity. }
  split; [apply Hcopy; reflexivity |].
  unfold delete_quote. rewrite Hcopy by reflexivity.
  change (query_agent (set_quotes db _) user_id) with (query_agent db user_id).
  match goal with
  | |- context [not_owner ?a ?c] =>
      change (not_owner a c) with (not_owner (query_agent db user_id) q)
  end.
  rewrite Hown. cbn [Quote.status].
  rewrite bool_decide_true by reflexivity. cbn [negb set_quotes Store.quotes].
  rewrite remove_quote_snoc_fresh; [| exact Hfresh | reflexivity].
  destruct db. reflexivity.
Qed.

Lemma agent_a1_owns_q1 :
  owns store "u1" (quote_of "q1" "a1" QuoteStatus.DRAFT 100).
Proof. exists (AgentRow.mk "a1" (Some "u1") bronze). split; reflexivity. Qed.

Lemma duplicate_then_delete_round_trip_witness :
  query_quote store "q1" = Some (quote_of "q1" "a1" QuoteStatus.DRAFT 100) /\
  owns store "u1" (quote_of "q1" "a1" QuoteStatus.DRAFT 100) /\
  query_quote store "q4" = None /\
  exists copy db',
    duplicate_quote "q1" "u1" "q4" 1000 1001 store = (Returns copy, db') /\
    Store.quotes db' = Store.quotes store ++ [copy] /\
    Quote.id copy = "q4" /\
    Quote.status copy = QuoteStatus.DRAFT /\
    Quote.client_name copy
    = "Copy of "
      +:+ Quote.client_name (quote_of "q1" "a1" QuoteStatus.DRAFT 100) /\
    Quote.agent_id copy
    = Quote.agent_id (quote_of "q1" "a1" QuoteStatus.DRAFT 100) /\
    Quote.options copy
    = Quote.options (quote_of "q1" "a1" QuoteStatus.DRAFT 100) /\
    Quote.pax copy = Quote.pax (quote_of "q1" "a1" QuoteStatus.DRAFT 100) /\
    Quote.pricing copy
    = Quote.pricing (quote_of "q1" "a1" QuoteStatus.DRAFT 100) /\
    Quote.valid_until copy = 1000 + 30 * 86400 /\
    query_quote db' "q1" = Some (quote_of "q1" "a1" QuoteStatus.DRAFT 100) /\
    query_quote db' "q4" = Some copy /\
    delete_quote "q4" "u1" db'
    = (Returns "Quote deleted successfully", store).
Proof.
  split; [reflexivity |]. split; [exact agent_a1_owns_q1 |].
  split; [reflexivity |].
  apply (duplicate_then_delete_round_trip "q1" "u1" "q4" 1000 1001 store);
    [reflexivity | exact agent_a1_owns_q1 | reflexivity].
Defined.


(** *** Listing *)

Lemma newest_first_total : Total newest_first.
Proof. intros q1 q2. unfold newest_first. lia. Qed.

Lemma newest_first_trans : Transitive newest_first.
Proof. intros q1 q2 q3. unfold newest_first. lia. Qed.

Lemma StronglySorted_page {A} (R : relation A) (xs : list A) (n m : nat) :
  StronglySorted R xs -> StronglySorted R (take m (drop n xs)).
Proof.
  intros Hxs. rewrite <- (take_drop n xs) in Hxs.
  apply StronglySorted_app_1_r in Hxs.
  rewrite <- (take_drop m (drop n xs)) in Hxs.
  apply StronglySorted_app_1_l in Hxs. exact Hxs.
Qed.

(** X28. For [page >= 1] and [size >= 1], [list_quotes] reports as [total]
    the number of matching quotes and as [pages] the least number of pages
    of [size] rows that hold them. A page has at most [size] items, exactly
    [size] before the last page and none beyond it, and item [k] of the
    page is matching quote [(page - 1) * size + k]. *)
Theorem list_quotes_paging (ilike : string -> string -> bool)
    (user_id : string) (page size : Z) (status : option QuoteStatus.t)
    (search : option string) (db : Store.t) (agent : AgentRow.t) :
  query_agent db user_id = Some agent ->
  1 <= page ->
  1 <= size ->
  let matching := quotes_query ilike agent status search db in
  exists resp,
    list_quotes ilike user_id page size status search db = Returns resp /\
    PaginatedResponse.total resp = Z.of_nat (length matching) /\
    PaginatedResponse.total resp <= PaginatedResponse.pages resp * size /\
    (PaginatedResponse.pages resp - 1) * size < PaginatedResponse.total resp /\
    Z.of_nat (length (PaginatedResponse.items resp)) <= size /\
    (page < PaginatedResponse.pages resp ->
     Z.of_nat (length (PaginatedResponse.items resp)) = size) /\
    (PaginatedResponse.pages resp < page ->
     PaginatedResponse.items resp = []) /\
    (forall k : nat,
        Z.of_nat k < size ->
        PaginatedResponse.items resp !! k
        = matching !! (Z.to_nat ((page - 1) * size) + k)%nat).
Proof.
  intros Hagent Hpage Hsize matching. unfold list_quotes. rewrite Hagent.
  fold matching. eexists. split; [reflexivity |].
  cbn [PaginatedResponse.total PaginatedResponse.pages PaginatedResponse.items].
  set (total := Z.of_nat (length matching)).
  assert (0 <= total) as Htotal by lia.
  pose proof (Z.div_mod (total + size - 1) size ltac:(lia)) as Hdiv.
  pose proof (Z.mod_pos_bound (total + size - 1) size ltac:(lia)) as Hmod.
  set (pages := (total + size - 1) / size) in *.
  split; [reflexivity |]. split; [nia |]. split; [nia |].
  rewrite length_take, length_drop.
  split; [lia |]. split; [| split].
  - intros Hlt. assert (page * size <= (pages - 1) * size) by nia. nia.
  - intros Hgt. rewrite drop_ge; [apply take_nil |].
    assert (pages * size <= (page - 1) * size) by nia. lia.
  - intros k Hk. rewrite lookup_take_lt by lia. apply lookup_drop.
Qed.

Lemma list_quotes_paging_witness :
  query_agent store "u1" = Some (AgentRow.mk "a1" (Some "u1") bronze) /\
  1 <= 2 /\
  1 <= 1 /\
  let matching :=
    quotes_query any_match (AgentRow.mk "a1" (Some "u1") bronze) None None
                 store in
  exists resp,
    list_quotes any_match "u1" 2 1 None None store = Returns resp /\
    PaginatedResponse.total resp = Z.of_nat (length matching) /\
    PaginatedResponse.total resp <= PaginatedResponse.pages resp * 1 /\
    (PaginatedResponse.pages resp - 1) * 1 < PaginatedResponse.total resp /\
    Z.of_nat (length (PaginatedResponse.items resp)) <= 1 /\
    (2 < PaginatedResponse.pages resp ->
     Z.of_nat (length (PaginatedResponse.items resp)) = 1) /\
    (PaginatedResponse.pages resp < 2 -> PaginatedResponse.items resp = []) /\
    (forall k : nat,
        Z.of_nat k < 1 ->
        PaginatedResponse.items resp !! k
        = matching !! (Z.to_nat ((2 - 1) * 1) + k)%nat).
Proof.
  split; [reflexivity |]. split; [lia |]. split; [lia |].
  apply (list_quotes_paging any_match "u1" 2 1 None None store);
    [reflexivity | lia | lia].
Defined.

(** X29. The items of [list_quotes] are sorted newest first, and each is a
    row of the quotes table that belongs to the caller's agent profile and
    has the status asked for, if any. Without filters the query matches
    exactly the agent's quotes, and an empty search string filters
    nothing. *)
Theorem list_quotes_content (ilike : string -> string -> bool)
    (user_id : string) (page size : Z) (status : option QuoteStatus.t)
    (search : option string) (db : Store.t) (agent : AgentRow.t) :
  query_agent db user_id = Some agent ->
  exists resp,
    list_quotes ilike user_id page size status search db = Returns resp /\
    Sorted newest_first (PaginatedResponse.items resp) /\
    (forall q : Quote.t,
        q ∈ PaginatedResponse.items resp ->
        q ∈ Store.quotes db /\
        Quote.agent_id q = Some (AgentRow.id agent) /\
        (forall s, status = Some s -> Quote.status q = s)) /\
    (forall q : Quote.t,
        q ∈ quotes_query ilike agent None None db <->
        q ∈ Store.quotes db /\ Quote.agent_id q = Some (AgentRow.id agent)) /\
    quotes_query ilike agent status (Some "") db
    = quotes_query ilike agent status None db.
Proof.
  intros Hagent. unfold list_quotes. rewrite Hagent.
  eexists. split; [reflexivity |]. cbn [PaginatedResponse.items].
  split; [| split; [| split]].
  - apply StronglySorted_Sorted, StronglySorted_page.
    apply (@StronglySorted_merge_sort _ newest_first _
             newest_first_trans newest_first_total).
  - intros q Hq. apply subseteq_take, subseteq_drop in Hq.
    unfold quotes_query in Hq. rewrite merge_sort_Permutation in Hq.
    assert (q ∈ match status with
                | Some s =>
                    List.filter
                      (fun x => bool_decide (Quote.status x = s))
                      (List.filter
                         (fun x => bool_decide
                                     (Quote.agent_id x
                                      = Some (AgentRow.id agent)))
                         (Store.quotes db))
                | None =>
                    List.filter
                      (fun x => bool_decide
                                  (Quote.agent_id x = Some (AgentRow.id agent)))
                      (Store.quotes db)
                end) as Hq'.
    { destruct search as [s|]; [| exact Hq].
      destruct (SeasonalRatesCrud.str_truthy s); [| exact Hq].
      apply RateFacts.elem_of_filter_bool in Hq as [Hq _]. exact Hq. }
    destruct status as [s|].
    + apply RateFacts.elem_of_filter_bool in Hq' as [Hq' Hs].
      apply RateFacts.elem_of_filter_bool in Hq' as [Hin Ha].
      apply bool_decide_eq_true in Hs, Ha.
      split; [exact Hin |]. split; [exact Ha |].
      intros s' Hs'. injection Hs' as <-. exact Hs.
    + apply RateFacts.elem_of_filter_bool in Hq' as [Hin Ha].
      apply bool_decide_eq_true in Ha.
      split; [exact Hin |]. split; [exact Ha | discriminate].
  - intros q. unfold quotes_query. rewrite merge_sort_Permutation.
    rewrite RateFacts.elem_of_filter_bool, bool_decide_eq_true. reflexivity.
  - reflexivity.
Qed.

Lemma list_quotes_content_witness :
  query_agent store "u1" = Some (AgentRow.mk "a1" (Some "u1") bronze) /\
  exists resp,
    list_quotes any_match "u1" 1 10 (Some QuoteStatus.DRAFT) (Some "ann") store
    = Returns resp /\
    Sorted newest_first (PaginatedResponse.items resp) /\
    (forall q : Quote.t,
        q ∈ PaginatedResponse.items resp ->
        q ∈ Store.quotes store /\
        Quote.agent_id q
        = Some (AgentRow.id (AgentRow.mk "a1" (Some "u1") bronze)) /\
        (forall s, Some QuoteStatus.DRAFT = Some s -> Quote.status q = s)) /\
    (forall q : Quote.t,
        q ∈ quotes_query any_match (AgentRow.mk "a1" (Some "u1") bronze)
                         None None store <->
        q ∈ Store.quotes store /\
        Quote.agent_id q
        = Some (AgentRow.id (AgentRow.mk "a1" (Some "u1") bronze))) /\
    quotes_query any_match (AgentRow.mk "a1" (Some "u1") bronze)
                 (Some QuoteStatus.DRAFT) (Some "") store
    = quotes_query any_match (AgentRow.mk "a1" (Some "u1") bronze)
                   (Some QuoteStatus.DRAFT) None store.
Proof.
  split; [reflexivity |].
  apply (list_quotes_content any_match "u1" 1 10 (Some QuoteStatus.DRAFT)
                             (Some "ann") store); reflexivity.
Defined.

End QuoteHandlerFacts.
